(** * Settings resolution of [backend/app/core/config.py]

    A shallow embedding of the configuration module: the CORS origin
    parser [parse_cors], the version discovery
    [_load_app_version_from_pyproject], the [Settings] schema with its two
    computed fields, and the module-level [settings = Settings()].

    Python [str] values are sequences of Unicode code points, Python
    objects of type [Any] are an inductive type of values, exceptions are
    an explicit result type, and the functions of the libraries the module
    calls into (pydantic's integer coercion and URL validation, the JSON
    decoder used by pydantic-settings) are the fields of a class. *)

From Stdlib Require Import ZArith NArith Lia List String Ascii.
From Stdlib Require Import Floats.SpecFloat.
From stdpp Require Import base option list gmap.

Local Open Scope list_scope.
Local Set Warnings "-register-all".

(** ** Python strings *)

(** A character is a code point, a [str] a sequence of them. *)
Abbreviation char := N.
Abbreviation str := (list N).

(** String literals of the source, written as Rocq strings. *)
Definition lit (s : string) : str :=
  List.map N_of_ascii (list_ascii_of_string s).

(** [str.isspace] on one character: the code points CPython's
    [_PyUnicode_IsWhitespace] accepts. *)
Definition isspace (c : char) : bool :=
  ((9 <=? c) && (c <=? 13) || (28 <=? c) && (c <=? 32)
   || (c =? 133) || (c =? 160) || (c =? 5760)
   || (8192 <=? c) && (c <=? 8202)
   || (c =? 8232) || (c =? 8233) || (c =? 8239) || (c =? 8287)
   || (c =? 12288))%N.

Definition comma : char := 44%N.
Definition slash : char := 47%N.
Definition lbracket : char := 91%N.

(** [s.lstrip(chars)] and [s.rstrip(chars)], with the character set given
    as a predicate. *)
Fixpoint lstrip_by (p : char -> bool) (s : str) : str :=
  match s with
  | [] => []
  | c :: r => if p c then lstrip_by p r else s
  end.

Fixpoint rstrip_by (p : char -> bool) (s : str) : str :=
  match s with
  | [] => []
  | c :: r =>
      match rstrip_by p r with
      | [] => if p c then [] else [c]
      | r' => c :: r'
      end
  end.

(** [s.strip()] *)
Definition strip (s : str) : str := rstrip_by isspace (lstrip_by isspace s).

(** [s.rstrip("/")] *)
Definition rstrip_slash (s : str) : str := rstrip_by (N.eqb slash) s.

(** [s.startswith("[")] *)
Definition startswith_lbracket (s : str) : bool :=
  match s with
  | c :: _ => N.eqb c lbracket
  | [] => false
  end.

(** [s.split(",")]: never empty, the empty string gives one empty piece. *)
Fixpoint split_comma (s : str) : list str :=
  match s with
  | [] => [[]]
  | c :: r =>
      if N.eqb c comma then [] :: split_comma r
      else match split_comma r with
           | p :: ps => (c :: p) :: ps
           | [] => [[c]]
           end
  end.

(** [",".join(pieces)] *)
Fixpoint join_comma (ps : list str) : str :=
  match ps with
  | [] => []
  | [p] => p
  | p :: ps' => p ++ comma :: join_comma ps'
  end.

(** ** Python values *)

(** The objects that reach the module: what [json.loads] and
    [tomllib.load] produce, and the other shapes a validator can be
    handed. A dict keeps its items in insertion order; date and time
    objects of a TOML document are kept by their text. *)
Inductive value : Type :=
  | VNone
  | VBool (b : bool)
  | VInt (n : Z)
  | VFloat (f : spec_float)
  | VStr (s : str)
  | VBytes (b : list N)
  | VList (l : list value)
  | VTuple (l : list value)
  | VDict (d : list (str * value))
  | VDateTime (iso : str).

(** Truth value testing ([bool(v)], [if v], [if not v]). *)
Definition truthy (v : value) : bool :=
  match v with
  | VNone => false
  | VBool b => b
  | VInt n => negb (Z.eqb n 0)
  | VFloat f => match f with S754_zero _ => false | _ => true end
  | VStr s => match s with [] => false | _ => true end
  | VBytes b => match b with [] => false | _ => true end
  | VList l => match l with [] => false | _ => true end
  | VTuple l => match l with [] => false | _ => true end
  | VDict d => match d with [] => false | _ => true end
  | VDateTime _ => true
  end.

Definition is_str (v : value) : bool :=
  match v with VStr _ => true | _ => false end.

Definition is_list (v : value) : bool :=
  match v with VList _ => true | _ => false end.

Definition is_dict (v : value) : bool :=
  match v with VDict _ => true | _ => false end.

(** [d[k] = v] on a dict: in place when the key is there, at the end
    otherwise. *)
Fixpoint set_item (k : str) (v : value) (d : list (str * value))
  : list (str * value) :=
  match d with
  | [] => [(k, v)]
  | (k', v') :: d' =>
      if bool_decide (k = k') then (k, v) :: d'
      else (k', v') :: set_item k v d'
  end.

(** ** Exceptions *)

Inductive exn : Type :=
  | ValueError (arg : value)
  | AttributeError
  | OSError
  | TOMLDecodeError.

Inductive result (A : Type) : Type :=
  | Return (a : A)
  | Raise (e : exn).
Arguments Return {A} a.
Arguments Raise {A} e.

Definition bind {A B} (m : result A) (k : A -> result B) : result B :=
  match m with
  | Return a => k a
  | Raise e => Raise e
  end.

Notation "'do' x <- m ; k" := (bind m (fun x => k))
  (at level 10, x name, m at level 100, k at level 200).

(** ** [parse_cors] *)

(** The list comprehension [[i.strip() for i in pieces if i.strip()]]. *)
Fixpoint strip_nonempty (pieces : list str) : list str :=
  match pieces with
  | [] => []
  | i :: rest =>
      if truthy (VStr (strip i)) then strip i :: strip_nonempty rest
      else strip_nonempty rest
  end.

Definition parse_cors (v : value) : result value :=
  match v with
  | VStr s =>
      if negb (startswith_lbracket s)
      then Return (VList (List.map VStr (strip_nonempty (split_comma s))))
      else Return v
  | VList _ => Return v
  | _ => Raise (ValueError v)
  end.

(** ** [_load_app_version_from_pyproject] *)

(** What the function meets at [pyproject.toml], three directories above
    the module: each call it makes into the file system or into [tomllib]
    either answers or raises. *)
Inductive manifest : Type :=
  | ExistsRaises                         (* [pyproject_path.exists()] raises *)
  | Missing                              (* [exists()] is [False] *)
  | OpenRaises                           (* [open(..., "rb")] raises *)
  | LoadRaises                           (* [tomllib.load(f)] raises *)
  | Loaded (config : list (str * value)) (* [tomllib.load(f)] returns a dict *).

Fixpoint lookup_item (k : str) (d : list (str * value)) : option value :=
  match d with
  | [] => None
  | (k', v) :: d' =>
      if bool_decide (k = k') then Some v else lookup_item k d'
  end.

(** [d.get(k, default)] on a dict. *)
Definition dict_get (d : list (str * value)) (k : str) (default : value) : value :=
  match lookup_item k d with
  | Some v => v
  | None => default
  end.

(** [v.get(k)] on an arbitrary object: only a dict has the method. *)
Definition get_method (v : value) (k : str) : result value :=
  match v with
  | VDict d => Return (dict_get d k VNone)
  | _ => Raise AttributeError
  end.

Definition path_exists (m : manifest) : result bool :=
  match m with
  | ExistsRaises => Raise OSError
  | Missing => Return false
  | _ => Return true
  end.

Definition open_and_load (m : manifest) : result (list (str * value)) :=
  match m with
  | Loaded config => Return config
  | LoadRaises => Raise TOMLDecodeError
  | _ => Raise OSError
  end.

Definition fallback_version : value := VStr (lit "0.0.0").

(** The body of the [try]. *)
Definition load_app_version_try (m : manifest) : result value :=
  do e <- path_exists m;
  if negb e then Return fallback_version
  else
    do config <- open_and_load m;
    do version <- get_method (dict_get config (lit "project") (VDict []))
                             (lit "version");
    if negb (truthy version) then Return fallback_version
    else Return version.

(** [try: ... except Exception: return "0.0.0"] *)
Definition _load_app_version_from_pyproject (m : manifest) : result value :=
  match load_app_version_try m with
  | Return v => Return v
  | Raise _ => Return fallback_version
  end.

(** ** [secrets.token_urlsafe] *)

(** The operating system's random source, as the sequence of bytes it is
    going to deliver; reading [n] bytes consumes them. *)
Definition entropy := nat -> Byte.byte.

Definition urandom (n : nat) (g : entropy) : list Byte.byte * entropy :=
  (List.map g (seq 0 n), fun i => g (n + i)).

Definition urlsafe_alphabet : str :=
  lit "ABCDEFGHIJKLMNOPQRSTUVWXYZabcdefghijklmnopqrstuvwxyz0123456789-_".

Definition equals_sign : char := 61%N.

Definition b64char (i : N) : char :=
  nth (N.to_nat i) urlsafe_alphabet equals_sign.

(** [base64.urlsafe_b64encode]: three bytes give four characters, a last
    group of one or two bytes is padded with [=]. *)
Fixpoint urlsafe_b64encode (bs : list N) : str :=
  match bs with
  | [] => []
  | [a] => [b64char (a / 4); b64char (a mod 4 * 16); equals_sign; equals_sign]
  | [a; b] =>
      [b64char (a / 4); b64char (a mod 4 * 16 + b / 16);
       b64char (b mod 16 * 4); equals_sign]
  | a :: b :: c :: rest =>
      b64char (a / 4) :: b64char (a mod 4 * 16 + b / 16)
      :: b64char (b mod 16 * 4 + c / 64) :: b64char (c mod 64)
      :: urlsafe_b64encode rest
  end%N.

(** [token_urlsafe(nbytes)]:
    [base64.urlsafe_b64encode(token_bytes(nbytes)).rstrip(b'=').decode('ascii')] *)
Definition urlsafe_token (bs : list N) : str :=
  rstrip_by (N.eqb equals_sign) (urlsafe_b64encode bs).

Definition token_of_bytes (tok : list Byte.byte) : str :=
  urlsafe_token (List.map Byte.to_N tok).

Definition token_urlsafe (nbytes : nat) (g : entropy) : str * entropy :=
  let (tok, g') := urandom nbytes g in (token_of_bytes tok, g').

(** ** The libraries behind the schema *)

(** A validated [AnyUrl]; [str(url)] is its normalized text. *)
Record AnyUrl : Type := { unicode_string : str }.

(** The library functions the schema relies on and the module does not
    define: pydantic's lax coercion of a string to [int], its validation
    of one item against [AnyUrl], and the [json.loads] pydantic-settings
    applies to the text of a complex field ([None] when it raises). *)
Class Library : Type := {
  int_from_str : str -> option Z;
  AnyUrl_validate : value -> option AnyUrl;
  json_loads : str -> option value
}.

(** ** Validation errors *)

Inductive loc_item : Type :=
  | LField (name : str)
  | LMember (member : str)
  | LIndex (i : nat).

Inductive error_type : Type :=
  | int_parsing
  | literal_error
  | value_error (e : exn)
  | url_parsing
  | list_type
  | string_type.

Record line_error : Type := {
  loc : list loc_item;
  type : error_type;
  input : value
}.

(** The field an error is reported for: the head of its location. *)
Definition error_field (e : line_error) : option str :=
  match loc e with
  | LField name :: _ => Some name
  | _ => None
  end.

(** The outcome of validating a field or a whole model: the value, or
    the errors collected. *)
Inductive validation (A : Type) : Type :=
  | Valid (a : A)
  | Invalid (errors : list line_error).
Arguments Valid {A} a.
Arguments Invalid {A} errors.

Definition errors_of {A} (r : validation A) : list line_error :=
  match r with
  | Valid _ => []
  | Invalid es => es
  end.

(** Fields are validated one after the other and every error is kept. *)
Definition ap {A B} (f : validation (A -> B)) (x : validation A) : validation B :=
  match f, x with
  | Valid g, Valid a => Valid (g a)
  | _, _ => Invalid (errors_of f ++ errors_of x)
  end.

Notation "f <*> x" := (ap f x) (at level 50, left associativity).

(** ** The [Settings] schema *)

(** A value of type [list[AnyUrl] | str]. *)
Inductive cors_origins : Type :=
  | OriginList (urls : list AnyUrl)
  | OriginStr (s : str).

(** What iterating over such a value yields: the URLs of a list, the
    characters of a string. *)
Inductive origin : Type :=
  | OUrl (u : AnyUrl)
  | OChar (c : char).

Definition iter_origins (o : cors_origins) : list origin :=
  match o with
  | OriginList urls => List.map OUrl urls
  | OriginStr s => List.map OChar s
  end.

(** [str(origin)] *)
Definition str_of_origin (o : origin) : str :=
  match o with
  | OUrl u => unicode_string u
  | OChar c => [c]
  end.

(** An instance of [Settings]. [APP_VERSION] holds whatever object the
    class default is when the field is not supplied, since defaults are
    not validated. *)
Record Settings : Type := {
  API_V1_STR : str;
  PROJECT_NAME : str;
  APP_VERSION : value;
  PORT : Z;
  SECRET_KEY : str;
  ENVIRONMENT : str;
  FRONTEND_HOST : str;
  BACKEND_CORS_ORIGINS : cors_origins;
  POSTGRES_SERVER : str;
  POSTGRES_PORT : Z;
  POSTGRES_USER : str;
  POSTGRES_PASSWORD : str;
  POSTGRES_DB : str
}.

(** The computed field [all_cors_origins]. *)
Definition all_cors_origins (self : Settings) : list str :=
  List.map (fun origin => rstrip_slash (str_of_origin origin))
           (iter_origins (BACKEND_CORS_ORIGINS self))
  ++ [FRONTEND_HOST self].

(** What the process gives the module: [os.environ], the pairs
    python-dotenv reads from the file [.env] of the working directory,
    references to variables expanded ([None] when there is no such file),
    and the state of [pyproject.toml]. *)
Record process : Type := {
  environ : gmap str str;
  dotenv : option (gmap str str);
  pyproject : manifest
}.

(** What executing the [class Settings] statement fixes: the [env_file]
    of [model_config] and the two defaults computed by a call. *)
Record SettingsClass : Type := {
  env_file : option str;
  default_APP_VERSION : value;
  default_SECRET_KEY : str
}.

(** [os.getenv(name)] *)
Definition getenv (p : process) (name : str) : value :=
  match environ p !! name with
  | Some s => VStr s
  | None => VNone
  end.

(** [env_file=None if os.getenv("TESTING") else ".env"] *)
Definition model_config_env_file (p : process) : option str :=
  if truthy (getenv p (lit "TESTING")) then None else Some (lit ".env").

Definition class_Settings (p : process) (g : entropy)
  : result (SettingsClass * entropy) :=
  let env_file := model_config_env_file p in
  do version <- _load_app_version_from_pyproject (pyproject p);
  let (token, g') := token_urlsafe 32 g in
  Return ({| env_file := env_file;
             default_APP_VERSION := version;
             default_SECRET_KEY := token |}, g').

(** [env_ignore_empty=True]: a variable set to the empty string counts as
    not set. *)
Definition ignore_empty (vars : gmap str str) : gmap str str :=
  filter (fun kv : str * str => kv.2 <> []) vars.

Definition env_settings (p : process) : gmap str str :=
  ignore_empty (environ p).

Definition dotenv_settings (cls : SettingsClass) (p : process) : gmap str str :=
  match env_file cls, dotenv p with
  | Some _, Some vars => ignore_empty vars
  | _, _ => ∅
  end.

(** The text found for a field of a simple type: the environment wins
    over the env-file; names are matched as they are
    ([case_sensitive=True]) and other names are not looked at
    ([extra="ignore"]). *)
Definition simple_field (cls : SettingsClass) (p : process) (name : str)
  : option str :=
  (env_settings p ∪ dotenv_settings cls p) !! name.

Definition environment_literals : list str :=
  [lit "local"; lit "development"; lit "staging"; lit "production"].

Definition supplied_or (default : str) (raw : option str) : str :=
  match raw with
  | Some s => s
  | None => default
  end.

Definition supplied_or_value (default : value) (raw : option str) : value :=
  match raw with
  | Some s => VStr s
  | None => default
  end.

Definition validate_str (default : str) (raw : option str) : validation str :=
  Valid (supplied_or default raw).

(** How pydantic-settings combines what two sources give for one key
    ([deep_update]): two dicts are merged key by key, the value of the
    source of higher priority going in place or at the end, and in every
    other case the value of the source of higher priority stands. *)
Fixpoint merge_value (higher lower : value) {struct higher} : value :=
  match higher, lower with
  | VDict updating, VDict mapping =>
      VDict
        ((fix update (items : list (str * value))
                     (updated : list (str * value)) : list (str * value) :=
            match items with
            | [] => updated
            | (k, v) :: rest =>
                update rest
                       (set_item k
                                 match lookup_item k updated with
                                 | Some old => merge_value v old
                                 | None => v
                                 end
                                 updated)
            end) updating mapping)
  | _, _ => higher
  end.

Section Schema.
Context {L : Library}.

(** A field whose type is a union with a list member is complex: each
    source decodes its text as JSON, keeps the text when that fails, and
    leaves the field out when the document is [null]. *)
Definition prepare_complex (s : str) : option value :=
  match json_loads s with
  | Some VNone => None
  | Some v => Some v
  | None => Some (VStr s)
  end.

(** The value found for a complex field: each source prepares its own,
    the environment's stands over the env-file's, and two dicts are
    merged. *)
Definition complex_field (cls : SettingsClass) (p : process) (name : str)
  : option value :=
  match env_settings p !! name ≫= prepare_complex,
        dotenv_settings cls p !! name ≫= prepare_complex with
  | Some v, Some w => Some (merge_value v w)
  | Some v, None => Some v
  | None, w => w
  end.

Definition validate_int (name : str) (default : Z) (raw : option str)
  : validation Z :=
  match raw with
  | None => Valid default
  | Some s =>
      match int_from_str s with
      | Some n => Valid n
      | None => Invalid [{| loc := [LField name]; type := int_parsing;
                            input := VStr s |}]
      end
  end.

Definition validate_literal (name : str) (allowed : list str) (default : str)
    (raw : option str) : validation str :=
  match raw with
  | None => Valid default
  | Some s =>
      if bool_decide (s ∈ allowed) then Valid s
      else Invalid [{| loc := [LField name]; type := literal_error;
                       input := VStr s |}]
  end.

(** The errors of the member [list[AnyUrl]]: one for each item that is
    not a URL, located by its index. *)
Fixpoint item_errors (name : str) (i : nat) (items : list value)
  : list line_error :=
  match items with
  | [] => []
  | x :: rest =>
      match AnyUrl_validate x with
      | Some _ => item_errors name (S i) rest
      | None =>
          {| loc := [LField name; LMember (lit "list[AnyUrl]"); LIndex i];
             type := url_parsing; input := x |}
          :: item_errors name (S i) rest
      end
  end.

(** Validation against [list[AnyUrl] | str]: a string is taken by the
    member [str], a list by the member [list[AnyUrl]] when every item
    is a URL; otherwise both members report. *)
Definition validate_union (name : str) (v : value) : validation cors_origins :=
  match v with
  | VStr s => Valid (OriginStr s)
  | VList items =>
      match mapM AnyUrl_validate items with
      | Some urls => Valid (OriginList urls)
      | None =>
          Invalid (item_errors name 0 items
                   ++ [{| loc := [LField name; LMember (lit "str")];
                          type := string_type; input := v |}])
      end
  | _ =>
      Invalid [{| loc := [LField name; LMember (lit "list[AnyUrl]")];
                  type := list_type; input := v |};
               {| loc := [LField name; LMember (lit "str")];
                  type := string_type; input := v |}]
  end.

(** [Annotated[list[AnyUrl] | str, BeforeValidator(parse_cors)]]: the
    [ValueError] of the validator becomes an error of the field. *)
Definition validate_cors (name : str) (default : cors_origins)
    (raw : option value) : validation cors_origins :=
  match raw with
  | None => Valid default
  | Some v =>
      match parse_cors v with
      | Raise e => Invalid [{| loc := [LField name]; type := value_error e;
                               input := v |}]
      | Return v' => validate_union name v'
      end
  end.

(** [Settings()]: every field is looked up in the sources and validated,
    a field no source supplies takes its default as it is. *)
Definition new_Settings (cls : SettingsClass) (p : process)
  : validation Settings :=
  let field := simple_field cls p in
  Valid Build_Settings
  <*> validate_str (lit "/api/v1") (field (lit "API_V1_STR"))
  <*> validate_str (lit "Pffsfat") (field (lit "PROJECT_NAME"))
  <*> Valid (supplied_or_value (default_APP_VERSION cls)
                              (field (lit "APP_VERSION")))
  <*> validate_int (lit "PORT") 8000 (field (lit "PORT"))
  <*> validate_str (default_SECRET_KEY cls) (field (lit "SECRET_KEY"))
  <*> validate_literal (lit "ENVIRONMENT") environment_literals (lit "local")
                       (field (lit "ENVIRONMENT"))
  <*> validate_str (lit "http://localhost:8080") (field (lit "FRONTEND_HOST"))
  <*> validate_cors (lit "BACKEND_CORS_ORIGINS") (OriginList [])
                    (complex_field cls p (lit "BACKEND_CORS_ORIGINS"))
  <*> validate_str (lit "localhost") (field (lit "POSTGRES_SERVER"))
  <*> validate_int (lit "POSTGRES_PORT") 5432 (field (lit "POSTGRES_PORT"))
  <*> validate_str (lit "app") (field (lit "POSTGRES_USER"))
  <*> validate_str (lit "changethis") (field (lit "POSTGRES_PASSWORD"))
  <*> validate_str (lit "pffsfat") (field (lit "POSTGRES_DB")).

(** Importing the module: the class statement, then
    [settings = Settings()]. *)
Definition import_module (p : process) (g : entropy)
  : result (validation Settings * entropy) :=
  do c <- class_Settings p g;
  Return (new_Settings c.1 p, c.2).

(** Calling the class a second time in the same process. *)
Definition import_and_resolve_again (p : process) (g : entropy)
  : result (validation Settings * validation Settings * entropy) :=
  do c <- class_Settings p g;
  Return (new_Settings c.1 p, new_Settings c.1 p, c.2).
End Schema.

(** ** The claims' vocabulary *)

(** [t] is [s] with the whitespace at both ends trimmed. *)
Definition Trimmed (s t : str) : Prop :=
  exists l r : str,
    s = l ++ t ++ r
    /\ forallb isspace l = true /\ forallb isspace r = true
    /\ (forall c, head t = Some c -> isspace c = false)
    /\ (forall c, last t = Some c -> isspace c = false).


(** A source supplies the text [v] for the field [name]: the environment
    does, or it does not and the env-file, when one is configured, does.
    The empty text supplies nothing. *)
Inductive supplied (env_file : option str) (p : process) (name v : str)
  : Prop :=
  | supplied_environ :
      environ p !! name = Some v -> v <> [] -> supplied env_file p name v
  | supplied_dotenv file vars :
      environ p !! name = None \/ environ p !! name = Some [] ->
      env_file = Some file -> dotenv p = Some vars ->
      vars !! name = Some v -> v <> [] -> supplied env_file p name v.

(** [s'] is [s] up to [SECRET_KEY]. *)
Definition same_but_secret (s s' : Settings) : Prop :=
  s' = {| API_V1_STR := API_V1_STR s;
          PROJECT_NAME := PROJECT_NAME s;
          APP_VERSION := APP_VERSION s;
          PORT := PORT s;
          SECRET_KEY := SECRET_KEY s';
          ENVIRONMENT := ENVIRONMENT s;
          FRONTEND_HOST := FRONTEND_HOST s;
          BACKEND_CORS_ORIGINS := BACKEND_CORS_ORIGINS s;
          POSTGRES_SERVER := POSTGRES_SERVER s;
          POSTGRES_PORT := POSTGRES_PORT s;
          POSTGRES_USER := POSTGRES_USER s;
          POSTGRES_PASSWORD := POSTGRES_PASSWORD s;
          POSTGRES_DB := POSTGRES_DB s |}.


(** The manifest parses and has [version] under [project]. *)
Definition declares_version (m : manifest) (version : value) : Prop :=
  exists config project,
    m = Loaded config
    /\ lookup_item (lit "project") config = Some (VDict project)
    /\ lookup_item (lit "version") project = Some version.

Section Offending.
Context {L : Library}.

End Offending.

(** ** A library and inputs for the examples *)

Definition digit_value (c : char) : option Z :=
  if ((48 <=? c) && (c <=? 57))%N then Some (Z.of_N c - 48)%Z else None.

Fixpoint decimal_digits (acc : Z) (s : str) : option Z :=
  match s with
  | [] => Some acc
  | c :: r =>
      match digit_value c with
      | Some d => decimal_digits (10 * acc + d)%Z r
      | None => None
      end
  end.

(** Integer coercion on plain decimal literals: surrounding whitespace,
    an optional sign, digits. *)
Definition decimal_int (s : str) : option Z :=
  match strip s with
  | [] => None
  | c :: r =>
      if (c =? 45)%N then
        match r with [] => None | _ => Z.opp <$> decimal_digits 0 r end
      else if (c =? 43)%N then
        match r with [] => None | _ => decimal_digits 0 r end
      else decimal_digits 0 (c :: r)
  end.

Definition is_letter (c : char) : bool :=
  ((65 <=? c) && (c <=? 90) || (97 <=? c) && (c <=? 122))%N.

(** [scheme://rest] with a scheme of letters and a non-empty [rest]
    without whitespace; [false] otherwise. *)
Fixpoint hierarchical (seen_scheme : bool) (s : str) : bool :=
  match s with
  | c :: r =>
      if is_letter c then hierarchical true r
      else
        match s with
        | 58%N :: 47%N :: 47%N :: ((_ :: _) as rest) =>
            seen_scheme && forallb (fun x => negb (isspace x)) rest
        | _ => false
        end
  | [] => false
  end.

Fixpoint after_scheme (s : str) : str :=
  match s with
  | 58%N :: 47%N :: 47%N :: rest => rest
  | _ :: r => after_scheme r
  | [] => []
  end.

(** URL validation on such texts; a URL without a path gets the path
    [/]. *)
Definition simple_url (v : value) : option AnyUrl :=
  match v with
  | VStr s =>
      if hierarchical false s then
        if bool_decide (slash ∈ after_scheme s)
        then Some {| unicode_string := s |}
        else Some {| unicode_string := s ++ [slash] |}
      else None
  | _ => None
  end.

(** The library on the inputs of the examples: decimal integers, simple
    URLs, and texts none of which is a JSON document. *)
Definition example_library : Library :=
  {| int_from_str := decimal_int;
     AnyUrl_validate := simple_url;
     json_loads := fun _ => None |}.

(** Two random sources. *)
Definition zeros : entropy := fun _ => Byte.x00.
Definition counting : entropy :=
  fun i => default Byte.x00 (Byte.of_N (N.of_nat i mod 256)).

(** A process with nothing set: no variable, no env-file, no manifest. *)
Definition bare_process : process :=
  {| environ := ∅; dotenv := None; pyproject := Missing |}.

(** The class of a process with nothing set. *)
Definition local_class : SettingsClass :=
  {| env_file := Some (lit ".env");
     default_APP_VERSION := fallback_version;
     default_SECRET_KEY := (token_urlsafe 32 zeros).1 |}.

Definition process_with (vars : list (str * str)) : process :=
  {| environ := list_to_map vars; dotenv := None; pyproject := Missing |}.


(** An instance with the defaults of the schema, a given [FRONTEND_HOST]
    and given [BACKEND_CORS_ORIGINS]. *)
Definition local_settings (host : str) (origins : cors_origins) : Settings :=
  {| API_V1_STR := lit "/api/v1";
     PROJECT_NAME := lit "Pffsfat";
     APP_VERSION := fallback_version;
     PORT := 8000;
     SECRET_KEY := (token_urlsafe 32 zeros).1;
     ENVIRONMENT := lit "local";
     FRONTEND_HOST := host;
     BACKEND_CORS_ORIGINS := origins;
     POSTGRES_SERVER := lit "localhost";
     POSTGRES_PORT := 5432;
     POSTGRES_USER := lit "app";
     POSTGRES_PASSWORD := lit "changethis";
     POSTGRES_DB := lit "pffsfat" |}.

(** No origin listed, and a host written with a slash at its end. *)
Definition settings_slash_host : Settings :=
  local_settings (lit "http://localhost:8080/") (OriginList []).

(** The host listed among the origins as well. *)
Definition settings_host_listed : Settings :=
  local_settings (lit "http://a.com")
                 (OriginList [{| unicode_string := lit "http://a.com/" |};
                              {| unicode_string := lit "http://b.com/x//" |}]).

(** ** Vocabulary for the sources and the defaults *)

(** The names of the fields of the schema, in its order. *)
Definition field_names : list str :=
  [lit "API_V1_STR"; lit "PROJECT_NAME"; lit "APP_VERSION"; lit "PORT";
   lit "SECRET_KEY"; lit "ENVIRONMENT"; lit "FRONTEND_HOST";
   lit "BACKEND_CORS_ORIGINS"; lit "POSTGRES_SERVER"; lit "POSTGRES_PORT";
   lit "POSTGRES_USER"; lit "POSTGRES_PASSWORD"; lit "POSTGRES_DB"].

(** The fields of type [str] that have a fixed default or the token: their
    name, their attribute and their default. *)
Definition text_fields (cls : SettingsClass)
  : list (str * (Settings -> str) * str) :=
  [(lit "API_V1_STR", API_V1_STR, lit "/api/v1");
   (lit "PROJECT_NAME", PROJECT_NAME, lit "Pffsfat");
   (lit "SECRET_KEY", SECRET_KEY, default_SECRET_KEY cls);
   (lit "FRONTEND_HOST", FRONTEND_HOST, lit "http://localhost:8080");
   (lit "POSTGRES_SERVER", POSTGRES_SERVER, lit "localhost");
   (lit "POSTGRES_USER", POSTGRES_USER, lit "app");
   (lit "POSTGRES_PASSWORD", POSTGRES_PASSWORD, lit "changethis");
   (lit "POSTGRES_DB", POSTGRES_DB, lit "pffsfat")].


(** The process with another env-file, or none. *)
Definition with_dotenv (p : process) (d : option (gmap str str)) : process :=
  {| environ := environ p; dotenv := d; pyproject := pyproject p |}.

(** An origin as [parse_cors] leaves it: not empty, without a comma and
    without whitespace at either end. *)
Definition clean_origin (t : str) : Prop :=
  t <> [] /\ (comma ∉ t)
  /\ (forall c, head t = Some c -> isspace c = false)
  /\ (forall c, last t = Some c -> isspace c = false).

Definition comma_or_space (c : char) : bool :=
  isspace c || (c =? comma)%N.

(** What a character of a string-valued [BACKEND_CORS_ORIGINS] becomes
    among the effective origins. *)
Definition origin_of_char (c : char) : str :=
  if (c =? slash)%N then [] else [c].


(** A process with variables and env-file pairs that name no field:
    [port] and [Port] are not [PORT]. *)
Definition noisy_process : process :=
  {| environ := list_to_map [(lit "port", lit "99"); (lit "HOME", lit "/root")];
     dotenv := Some (list_to_map [(lit "Port", lit "1")]);
     pyproject := Missing |}.

(** A process whose environment says it runs under test and whose
    env-file sets a port. *)
Definition testing_process : process :=
  {| environ := list_to_map [(lit "TESTING", lit "1")];
     dotenv := Some (list_to_map [(lit "PORT", lit "9000")]);
     pyproject := Missing |}.

(** A process whose environment and env-file both speak: the file is
    overridden for [PROJECT_NAME], used for [POSTGRES_DB], whose variable
    is empty, and for [ENVIRONMENT] and [PORT]; the variable [port] is no
    field. *)
Definition layered_process : process :=
  {| environ := list_to_map [(lit "PROJECT_NAME", lit "Shop");
                             (lit "POSTGRES_DB", lit "");
                             (lit "port", lit "1")];
     dotenv := Some (list_to_map [(lit "PROJECT_NAME", lit "Other");
                                  (lit "POSTGRES_DB", lit "shop");
                                  (lit "ENVIRONMENT", lit "staging");
                                  (lit "PORT", lit "9000")]);
     pyproject :=
       Loaded [(lit "project", VDict [(lit "name", VStr (lit "backend"));
                                      (lit "version", VStr (lit "1.4.0"))])] |}.

(** A list of one URL as a JSON document, [["http://a.com"]], and the
    library of the examples with [json.loads] on this text and on [123]. *)
Definition json_origins_text : str :=
  [lbracket; 34%N] ++ lit "http://a.com" ++ [34%N; 93%N].

Definition json_loads_examples (s : str) : option value :=
  if bool_decide (s = json_origins_text)
  then Some (VList [VStr (lit "http://a.com")])
  else if bool_decide (s = lit "123") then Some (VInt 123)
  else None.

Definition json_library : Library :=
  {| int_from_str := decimal_int;
     AnyUrl_validate := simple_url;
     json_loads := json_loads_examples |}.

(** * Properties *)

(** ** Stripping and splitting *)

Lemma rstrip_by_app (p : char -> bool) (s : str) :
  exists r, s = rstrip_by p s ++ r /\ forallb p r = true.
Proof.
  induction s as [|c s [r [Hs Hr]]]; [by exists []|].
  simpl. destruct (rstrip_by p s) as [|x t] eqn:E.
  - simpl in Hs. subst r. destruct (p c) eqn:Hc.
    + exists (c :: s). simpl. by rewrite Hc, Hr.
    + by exists s.
  - exists r. split; [|done]. by rewrite Hs at 1.
Qed.

Lemma rstrip_by_last (p : char -> bool) (s : str) (c : char) :
  last (rstrip_by p s) = Some c -> p c = false.
Proof.
  induction s as [|a s IH]; [done|].
  simpl. destruct (rstrip_by p s) as [|x t] eqn:E.
  - destruct (p a) eqn:Ha; [done|]. simpl. by intros [= <-].
  - apply IH.
Qed.

Lemma rstrip_by_head (p : char -> bool) (s : str) (c : char) :
  head (rstrip_by p s) = Some c -> head s = Some c.
Proof.
  destruct s as [|a s]; [done|].
  simpl. destruct (rstrip_by p s); [destruct (p a)|]; simpl; congruence.
Qed.

(** [rstrip] is determined by what it leaves and what it removes. *)
Lemma rstrip_by_unique (p : char -> bool) (t r : str) :
  forallb p r = true -> (forall c, last t = Some c -> p c = false) ->
  rstrip_by p (t ++ r) = t.
Proof.
  intros Hr. induction t as [|a t IH]; intros Hl.
  - simpl. induction r as [|b r IHr]; [done|].
    simpl in *. apply andb_true_iff in Hr as [Hb Hr].
    by rewrite (IHr Hr), Hb.
  - simpl. destruct t as [|b t].
    + simpl in *. rewrite IH by done. by rewrite (Hl a eq_refl).
    + rewrite IH; [done|]. intros c Hc. by apply Hl.
Qed.

Lemma lstrip_by_app (p : char -> bool) (s : str) :
  exists l, s = l ++ lstrip_by p s /\ forallb p l = true.
Proof.
  induction s as [|c s [l [Hs Hl]]]; [by exists []|].
  simpl. destruct (p c) eqn:Hc.
  - exists (c :: l). simpl. by rewrite Hc, Hl, <- Hs.
  - by exists [].
Qed.

Lemma lstrip_by_head (p : char -> bool) (s : str) (c : char) :
  head (lstrip_by p s) = Some c -> p c = false.
Proof.
  induction s as [|a s IH]; [done|].
  simpl. destruct (p a) eqn:Ha; [done|]. simpl. by intros [= <-].
Qed.

Lemma strip_Trimmed (s : str) : Trimmed s (strip s).
Proof.
  destruct (lstrip_by_app isspace s) as [l [Hs Hl]].
  destruct (rstrip_by_app isspace (lstrip_by isspace s)) as [r [Ht Hr]].
  exists l, r. repeat split; try done.
  - unfold strip. by rewrite <- Ht.
  - intros c Hc. apply (lstrip_by_head isspace s).
    by apply (rstrip_by_head isspace).
  - intros c. apply rstrip_by_last.
Qed.



Lemma rstrip_slash_id (s : str) : last s <> Some slash -> rstrip_slash s = s.
Proof.
  intros H. unfold rstrip_slash. rewrite <- (app_nil_r s) at 1.
  apply rstrip_by_unique; [done|].
  intros c Hc. apply N.eqb_neq. congruence.
Qed.

Lemma split_comma_nonempty (s : str) : split_comma s <> [].
Proof.
  destruct s as [|c s]; [done|].
  simpl. destruct (c =? comma)%N; [done|]. by destruct (split_comma s).
Qed.

Lemma join_split_comma (s : str) : join_comma (split_comma s) = s.
Proof.
  induction s as [|c s IH]; [done|].
  simpl. destruct (c =? comma)%N eqn:Hc.
  - apply N.eqb_eq in Hc. subst c.
    pose proof (split_comma_nonempty s).
    simpl. destruct (split_comma s); [done|]. by rewrite IH.
  - pose proof (split_comma_nonempty s).
    destruct (split_comma s) as [|q [|q' ps]]; [done| |]; simpl in *; by rewrite IH.
Qed.

Lemma split_comma_no_comma (s : str) :
  Forall (fun piece => comma ∉ piece) (split_comma s).
Proof.
  induction s as [|c s IH]; simpl.
  - constructor; [|done]. by intros ?%elem_of_nil.
  - destruct (c =? comma)%N eqn:Hc.
    + constructor; [|done]. by intros ?%elem_of_nil.
    + destruct (split_comma s) as [|q ps].
      * constructor; [|done].
        intros E%list_elem_of_singleton. rewrite <- E in Hc.
        by rewrite N.eqb_refl in Hc.
      * inversion IH; subst. constructor; [|done].
        intros [E|?]%elem_of_cons; [|done].
        rewrite <- E in Hc. by rewrite N.eqb_refl in Hc.
Qed.

Lemma strip_nonempty_filter (pieces : list str) :
  strip_nonempty pieces = filter (fun t => t <> []) (strip <$> pieces).
Proof.
  induction pieces as [|i rest IH]; [done|].
  rewrite fmap_cons, filter_cons. simpl. rewrite IH.
  case_decide as E; by destruct (strip i).
Qed.

(** ** [parse_cors] *)

(** C5: on a string that does not start with [[], [parse_cors] returns, in
    order, the pieces between the commas, each with its whitespace
    trimmed, the empty ones dropped; ["http://a.com, http://b.com"] gives
    the two URLs and the empty string the empty list. *)
Theorem parse_cors_comma_separated :
  (forall s : str,
      startswith_lbracket s = false ->
      exists pieces trimmed : list str,
        join_comma pieces = s
        /\ pieces <> []
        /\ Forall (fun piece => comma ∉ piece) pieces
        /\ Forall2 Trimmed pieces trimmed
        /\ parse_cors (VStr s)
           = Return (VList (VStr <$> filter (fun t => t <> []) trimmed)))
  /\ parse_cors (VStr (lit "http://a.com, http://b.com"))
     = Return (VList [VStr (lit "http://a.com"); VStr (lit "http://b.com")])
  /\ parse_cors (VStr (lit "")) = Return (VList []).
Proof.
  split; [|by split].
  intros s Hs. exists (split_comma s), (strip <$> split_comma s).
  split; [apply join_split_comma|].
  split; [apply split_comma_nonempty|].
  split; [apply split_comma_no_comma|].
  split.
  - apply Forall2_fmap_r, Forall_Forall2_diag, Forall_forall.
    intros piece _. apply strip_Trimmed.
  - unfold parse_cors. rewrite Hs. simpl. by rewrite strip_nonempty_filter.
Qed.

Lemma parse_cors_comma_separated_witness :
  startswith_lbracket (lit " a.io ,,b.io/") = false
  /\ exists pieces trimmed : list str,
       join_comma pieces = lit " a.io ,,b.io/"
       /\ pieces <> []
       /\ Forall (fun piece => comma ∉ piece) pieces
       /\ Forall2 Trimmed pieces trimmed
       /\ parse_cors (VStr (lit " a.io ,,b.io/"))
          = Return (VList (VStr <$> filter (fun t => t <> []) trimmed)).
Proof.
  split; [reflexivity|].
  apply (proj1 parse_cors_comma_separated). reflexivity.
Defined.

(** C6: [parse_cors] returns a list, or a string that starts with [[], as
    it is, and raises [ValueError] carrying its argument on anything that
    is neither a string nor a list; the field it guards then fails with a
    validation error that carries that value. *)
Theorem parse_cors_passthrough_or_error `{L : Library} (v : value) :
  (is_list v = true -> parse_cors v = Return v)
  /\ (forall s, v = VStr s -> startswith_lbracket s = true ->
      parse_cors v = Return v)
  /\ (is_str v = false -> is_list v = false ->
      parse_cors v = Raise (ValueError v)
      /\ forall name default,
          validate_cors name default (Some v)
          = Invalid [{| loc := [LField name];
                        type := value_error (ValueError v);
                        input := v |}]).
Proof.
  split; [|split].
  - by destruct v.
  - intros s -> Hs. unfold parse_cors. by rewrite Hs.
  - by destruct v.
Qed.

Lemma parse_cors_passthrough_or_error_witness :
  parse_cors (VList [VStr (lit "http://a.com"); VInt 7])
  = Return (VList [VStr (lit "http://a.com"); VInt 7])
  /\ parse_cors (VStr (lit "[http://a.com, http://b.com]"))
     = Return (VStr (lit "[http://a.com, http://b.com]"))
  /\ parse_cors (VInt 7) = Raise (ValueError (VInt 7)).
Proof.
  split; [|split].
  - apply (proj1 (parse_cors_passthrough_or_error (L := example_library) _)).
    reflexivity.
  - apply (proj1 (proj2 (parse_cors_passthrough_or_error
                           (L := example_library) _)) _ eq_refl).
    reflexivity.
  - apply (proj2 (proj2 (parse_cors_passthrough_or_error
                           (L := example_library) _))); reflexivity.
Defined.

(** ** [all_cors_origins] *)

Lemma length_all_cors_origins (self : Settings) :
  length (all_cors_origins self)
  = S (length (iter_origins (BACKEND_CORS_ORIGINS self))).
Proof.
  unfold all_cors_origins. rewrite length_app, length_map. simpl. lia.
Qed.

Lemma last_all_cors_origins (self : Settings) :
  last (all_cors_origins self) = Some (FRONTEND_HOST self).
Proof. unfold all_cors_origins. apply last_snoc. Qed.



(** C3, as the code has it: the effective origins end with
    [FRONTEND_HOST] as it is written, so they are never empty, and they
    are exactly the host when no origin is listed; the host is the
    normalized one when it is written without a slash at its end. *)
Theorem all_cors_origins_has_frontend_host (self : Settings) :
  FRONTEND_HOST self ∈ all_cors_origins self
  /\ last (all_cors_origins self) = Some (FRONTEND_HOST self)
  /\ 1 <= length (all_cors_origins self)
  /\ (iter_origins (BACKEND_CORS_ORIGINS self) = [] ->
      all_cors_origins self = [FRONTEND_HOST self])
  /\ (last (FRONTEND_HOST self) <> Some slash ->
      rstrip_slash (FRONTEND_HOST self) ∈ all_cors_origins self).
Proof.
  assert (Hin : FRONTEND_HOST self ∈ all_cors_origins self).
  { unfold all_cors_origins. apply elem_of_app. right. apply list_elem_of_singleton. reflexivity. }
  split; [done|]. split; [apply last_all_cors_origins|].
  split; [rewrite length_all_cors_origins; lia|].
  split.
  - intros H. unfold all_cors_origins. by rewrite H.
  - intros H. by rewrite rstrip_slash_id.
Qed.

Lemma all_cors_origins_has_frontend_host_witness :
  all_cors_origins settings_slash_host = [lit "http://localhost:8080/"]
  /\ rstrip_slash (lit "http://a.com") ∈ all_cors_origins settings_host_listed.
Proof.
  split.
  - apply (proj1 (proj2 (proj2 (proj2
             (all_cors_origins_has_frontend_host settings_slash_host))))).
    reflexivity.
  - apply (proj2 (proj2 (proj2 (proj2
             (all_cors_origins_has_frontend_host settings_host_listed))))).
    vm_compute. congruence.
Defined.

(** C3, as the claim has it, fails: a host written with a slash at its end
    stays so, the host without the slash is not among the origins, and a
    host that is also listed occurs twice. *)
Lemma frontend_host_slash_kept :
  BACKEND_CORS_ORIGINS settings_slash_host = OriginList []
  /\ all_cors_origins settings_slash_host = [lit "http://localhost:8080/"]
  /\ (all_cors_origins settings_slash_host
      <> [rstrip_slash (FRONTEND_HOST settings_slash_host)])
  /\ (rstrip_slash (FRONTEND_HOST settings_slash_host)
      ∉ all_cors_origins settings_slash_host)
  /\ all_cors_origins settings_host_listed
     = [lit "http://a.com"; lit "http://b.com/x"; lit "http://a.com"].
Proof.
  split; [reflexivity|]. split; [reflexivity|].
  split; [vm_compute; congruence|]. split; [|reflexivity].
  intros H. apply list_elem_of_singleton in H. vm_compute in H. congruence.
Qed.

(** ** [_load_app_version_from_pyproject] *)

Lemma get_method_dict (d : list (str * value)) (k : str) :
  get_method (VDict d) k = Return (dict_get d k VNone).
Proof. reflexivity. Qed.

(** The function returns the declared version when there is a truthy one,
    and the fallback in every other case. *)
Lemma load_app_version_cases (m : manifest) :
  _load_app_version_from_pyproject m = Return fallback_version
  \/ exists version,
       declares_version m version /\ truthy version = true
       /\ _load_app_version_from_pyproject m = Return version.
Proof.
  destruct m as [| | | |config]; try by left.
  unfold _load_app_version_from_pyproject, load_app_version_try, dict_get.
  simpl. destruct (lookup_item (lit "project") config) as [v|] eqn:Hp.
  - destruct v as [| | | | | | | |project|]; try by left.
    rewrite get_method_dict. unfold dict_get. simpl.
    destruct (lookup_item (lit "version") project) as [version|] eqn:Hv;
      [|by left].
    destruct (truthy version) eqn:Ht; [|by left].
    right. exists version. split; [|done]. by exists config, project.
  - by left.
Qed.


Lemma class_Settings_returns (p : process) (g : entropy) :
  exists version,
    _load_app_version_from_pyproject (pyproject p) = Return version
    /\ class_Settings p g
       = Return ({| env_file := model_config_env_file p;
                    default_APP_VERSION := version;
                    default_SECRET_KEY := (token_urlsafe 32 g).1 |},
                 (token_urlsafe 32 g).2).
Proof.
  unfold class_Settings.
  destruct (load_app_version_cases (pyproject p)) as [H|(v & _ & _ & H)];
    rewrite H; simpl; eexists; (split; [done|]);
    by destruct (token_urlsafe 32 g).
Qed.




(** C10: a version that is declared but falsy gives the fallback
    ["0.0.0"], as a missing one does; so what the function returns is
    never empty, whatever the manifest. *)
Theorem load_app_version_falsy_fallback (m : manifest) :
  (forall version,
      declares_version m version -> truthy version = false ->
      _load_app_version_from_pyproject m = Return (VStr (lit "0.0.0")))
  /\ (exists v, _load_app_version_from_pyproject m = Return v
                /\ truthy v = true /\ v <> VStr []).
Proof.
  split.
  - intros version (config & project & -> & Hp & Hv) Hf.
    destruct (load_app_version_cases (Loaded config))
      as [H|(v' & (c & pr & E & Hp' & Hv') & Ht & _)]; [done|].
    inversion E; subst c. rewrite Hp in Hp'. inversion Hp'; subst pr.
    rewrite Hv in Hv'. inversion Hv'; subst v'. congruence.
  - destruct (load_app_version_cases m) as [H|(v & _ & Ht & H)].
    + by exists fallback_version.
    + exists v. repeat split; try done. intros ->. done.
Qed.

Lemma load_app_version_falsy_fallback_witness :
  _load_app_version_from_pyproject
    (Loaded [(lit "project", VDict [(lit "version", VStr (lit ""))])])
  = Return (VStr (lit "0.0.0")).
Proof.
  apply (proj1 (load_app_version_falsy_fallback _) (VStr (lit ""))).
  - by eexists _, _.
  - reflexivity.
Defined.

Example load_app_version_declared :
  _load_app_version_from_pyproject
    (Loaded [(lit "project", VDict [(lit "name", VStr (lit "backend"));
                                    (lit "version", VStr (lit "0.3.1"))])])
  = Return (VStr (lit "0.3.1")).
Proof. reflexivity. Qed.

(** A declared version that is not a string is returned as it is. *)
Example load_app_version_integer :
  _load_app_version_from_pyproject
    (Loaded [(lit "project", VDict [(lit "version", VInt 2)])])
  = Return (VInt 2).
Proof. reflexivity. Qed.

(** ** [token_urlsafe] *)

(** Induction on a list of bytes by groups of three. *)
Lemma list_ind_by_three {A} (P : list A -> Prop) :
  P [] -> (forall a, P [a]) -> (forall a b, P [a; b]) ->
  (forall a b c rest, P rest -> P (a :: b :: c :: rest)) ->
  forall l, P l.
Proof.
  intros H0 H1 H2 H3 l.
  assert (H : P l /\ (forall a, P (a :: l)) /\ (forall a b, P (a :: b :: l))).
  { induction l as [|x l (IH0 & IH1 & IH2)]; [by auto|].
    split; [apply IH1|]. split; [intros a; apply IH2|].
    intros a b. by apply H3. }
  apply H.
Qed.

Lemma rstrip_by_cons_keep (p : char -> bool) (c : char) (s : str) :
  p c = false -> rstrip_by p (c :: s) = c :: rstrip_by p s.
Proof. intros H. simpl. rewrite H. by destruct (rstrip_by p s). Qed.

(** The characters of the alphabet are pairwise distinct and none is the
    padding. *)
Lemma b64char_spec (i : N) :
  (i < 64)%N ->
  b64char i <> equals_sign
  /\ list_find (N.eqb (b64char i)) urlsafe_alphabet
     = Some (N.to_nat i, b64char i).
Proof.
  intros Hi.
  assert (H : forallb (fun n =>
                bool_decide (b64char (N.of_nat n) <> equals_sign
                  /\ list_find (N.eqb (b64char (N.of_nat n))) urlsafe_alphabet
                     = Some (n, b64char (N.of_nat n))))
                (seq 0 64) = true) by (vm_compute; reflexivity).
  rewrite forallb_forall in H. specialize (H (N.to_nat i)).
  rewrite N2Nat.id in H. apply (bool_decide_eq_true_1 _). apply H, in_seq. lia.
Qed.

Lemma b64char_inj (i j : N) :
  (i < 64)%N -> (j < 64)%N -> b64char i = b64char j -> i = j.
Proof.
  intros Hi Hj H.
  destruct (b64char_spec i Hi) as [_ Ei], (b64char_spec j Hj) as [_ Ej].
  rewrite H in Ei. rewrite Ei in Ej. inversion Ej. lia.
Qed.

Lemma b64char_not_pad (i : N) :
  (i < 64)%N -> (equals_sign =? b64char i)%N = false.
Proof.
  intros Hi. apply N.eqb_neq. intros E.
  by destruct (b64char_spec i Hi) as [H _].
Qed.

Local Open Scope N_scope.

Lemma divmod_spec (x d : N) :
  d <> 0 -> exists q r, x / d = q /\ x mod d = r /\ x = d * q + r /\ r < d.
Proof.
  intros Hd. exists (x / d), (x mod d). repeat split.
  - by apply N.div_mod.
  - by apply N.mod_lt.
Qed.

(** Name the quotient and the remainder of a byte by a constant. *)
Ltac name_divmod x d :=
  let q := fresh "q" in
  let r := fresh "r" in
  let Eq := fresh "Eq" in
  let Er := fresh "Er" in
  destruct (divmod_spec x d) as (q & r & Eq & Er & ? & ?); [done|];
  rewrite ?Eq, ?Er in *; clear Eq Er.

Lemma sextets_bounded (a b : N) :
  a < 256 -> b < 256 ->
  a / 4 < 64 /\ a mod 4 * 16 + b / 16 < 64 /\ a mod 16 * 4 + b / 64 < 64
  /\ a mod 4 * 16 < 64 /\ a mod 16 * 4 < 64 /\ a mod 64 < 64.
Proof.
  intros Ha Hb.
  name_divmod a 4. name_divmod a 16. name_divmod a 64.
  name_divmod b 16. name_divmod b 64. lia.
Qed.

Lemma sextets_inj_one (a a' : N) :
  a / 4 = a' / 4 -> a mod 4 * 16 = a' mod 4 * 16 -> a = a'.
Proof. name_divmod a 4. name_divmod a' 4. lia. Qed.

Lemma sextets_inj_two (a b a' b' : N) :
  b < 256 -> b' < 256 ->
  a / 4 = a' / 4 -> a mod 4 * 16 + b / 16 = a' mod 4 * 16 + b' / 16 ->
  b mod 16 * 4 = b' mod 16 * 4 -> a = a' /\ b = b'.
Proof.
  name_divmod a 4. name_divmod a' 4. name_divmod b 16. name_divmod b' 16. lia.
Qed.

Lemma sextets_inj_three (a b c a' b' c' : N) :
  b < 256 -> c < 256 -> b' < 256 -> c' < 256 ->
  a / 4 = a' / 4 -> a mod 4 * 16 + b / 16 = a' mod 4 * 16 + b' / 16 ->
  b mod 16 * 4 + c / 64 = b' mod 16 * 4 + c' / 64 -> c mod 64 = c' mod 64 ->
  a = a' /\ b = b' /\ c = c'.
Proof.
  name_divmod a 4. name_divmod a' 4. name_divmod b 16. name_divmod b' 16.
  name_divmod c 64. name_divmod c' 64. lia.
Qed.

Lemma urlsafe_token_one (a : N) :
  a < 256 -> urlsafe_token [a] = [b64char (a / 4); b64char (a mod 4 * 16)].
Proof.
  intros Ha. destruct (sextets_bounded a a Ha Ha) as (H1 & _ & _ & H2 & _).
  unfold urlsafe_token. simpl urlsafe_b64encode.
  apply (rstrip_by_unique _ [_; _] [_; _]).
  - reflexivity.
  - simpl. intros c [= <-]. by apply b64char_not_pad.
Qed.

Lemma urlsafe_token_two (a b : N) :
  a < 256 -> b < 256 ->
  urlsafe_token [a; b]
  = [b64char (a / 4); b64char (a mod 4 * 16 + b / 16); b64char (b mod 16 * 4)].
Proof.
  intros Ha Hb. destruct (sextets_bounded b b Hb Hb) as (_ & _ & _ & _ & H & _).
  unfold urlsafe_token. simpl urlsafe_b64encode.
  apply (rstrip_by_unique _ [_; _; _] [_]).
  - reflexivity.
  - simpl. intros c [= <-]. by apply b64char_not_pad.
Qed.

Lemma urlsafe_token_three (a b c : N) (rest : list N) :
  a < 256 -> b < 256 -> c < 256 ->
  urlsafe_token (a :: b :: c :: rest)
  = b64char (a / 4) :: b64char (a mod 4 * 16 + b / 16)
    :: b64char (b mod 16 * 4 + c / 64) :: b64char (c mod 64)
    :: urlsafe_token rest.
Proof.
  intros Ha Hb Hc.
  destruct (sextets_bounded a b Ha Hb) as (H1 & H2 & _).
  destruct (sextets_bounded b c Hb Hc) as (_ & _ & H3 & _).
  destruct (sextets_bounded c c Hc Hc) as (_ & _ & _ & _ & _ & H4).
  unfold urlsafe_token. simpl urlsafe_b64encode.
  by rewrite !rstrip_by_cons_keep by by apply b64char_not_pad.
Qed.

(** Distinct byte strings have distinct tokens. *)
Lemma urlsafe_token_inj (bs bs' : list N) :
  Forall (fun x => x < 256) bs -> Forall (fun x => x < 256) bs' ->
  urlsafe_token bs = urlsafe_token bs' -> bs = bs'.
Proof.
  revert bs'. induction bs as [|a|a b|a b c rest IH] using list_ind_by_three;
    intros [|a' [|b' [|c' rest']]] Hbs Hbs';
    repeat match goal with
           | H : Forall _ (_ :: _) |- _ => apply Forall_cons in H as [? H]
           end;
    rewrite ?urlsafe_token_one, ?urlsafe_token_two, ?urlsafe_token_three
      by done;
    try done.
  - intros [= E1 E2].
    destruct (sextets_bounded a a) as (? & _ & _ & ? & _); try done.
    destruct (sextets_bounded a' a') as (? & _ & _ & ? & _); try done.
    apply b64char_inj in E1, E2; try done.
    by rewrite (sextets_inj_one a a').
  - intros [= E1 E2 E3].
    destruct (sextets_bounded a b) as (? & ? & _); try done.
    destruct (sextets_bounded a' b') as (? & ? & _); try done.
    destruct (sextets_bounded b b) as (_ & _ & _ & _ & ? & _); try done.
    destruct (sextets_bounded b' b') as (_ & _ & _ & _ & ? & _); try done.
    apply b64char_inj in E1, E2, E3; try done.
    by destruct (sextets_inj_two a b a' b') as [-> ->].
  - intros [= E1 E2 E3 E4 E].
    destruct (sextets_bounded a b) as (? & ? & _); try done.
    destruct (sextets_bounded a' b') as (? & ? & _); try done.
    destruct (sextets_bounded b c) as (_ & _ & ? & _); try done.
    destruct (sextets_bounded b' c') as (_ & _ & ? & _); try done.
    destruct (sextets_bounded c c) as (_ & _ & _ & _ & _ & ?); try done.
    destruct (sextets_bounded c' c') as (_ & _ & _ & _ & _ & ?); try done.
    apply b64char_inj in E1, E2, E3, E4; try done.
    destruct (sextets_inj_three a b c a' b' c') as (-> & -> & ->); try done.
    by rewrite (IH rest').
Qed.

Local Close Scope N_scope.

(** ** Resolution *)

Section Resolution.
Context {L : Library}.

Lemma simple_field_supplied cls p name v :
  simple_field cls p name = Some v <-> supplied (env_file cls) p name v.
Proof.
  unfold simple_field, env_settings, dotenv_settings, ignore_empty.
  rewrite lookup_union_Some_raw, map_lookup_filter_Some, map_lookup_filter_None.
  simpl. split.
  - intros [[H1 H2]|[H1 H2]]; [by constructor|].
    destruct (env_file cls) eqn:Hf, (dotenv p) eqn:Hd;
      try (by rewrite lookup_empty in H2).
    apply map_lookup_filter_Some in H2 as [H2 H3].
    eapply supplied_dotenv; eauto.
    destruct H1 as [H1|H1]; [by left|].
    destruct (environ p !! name) as [t|] eqn:E; [|by left].
    right. f_equal. specialize (H1 t eq_refl). simpl in H1.
    destruct t; [done|]. by destruct H1.
  - intros [H1 H2|file vars H1 Hf Hd Hv Hne]; [by left|].
    right. rewrite Hf, Hd. split.
    + destruct H1 as [H1|H1]; [by left|].
      right. intros x Hx. assert (x = []) as -> by congruence. simpl. tauto.
    + by apply map_lookup_filter_Some.
Qed.

Lemma simple_field_not_supplied cls p name :
  simple_field cls p name = None <-> forall v, ~ supplied (env_file cls) p name v.
Proof.
  split.
  - intros H v Hv%simple_field_supplied. congruence.
  - intros H. destruct (simple_field cls p name) as [v|] eqn:E; [|done].
    by destruct (H v); apply simple_field_supplied.
Qed.

Lemma errors_of_ap {A B} (f : validation (A -> B)) (x : validation A) :
  errors_of (f <*> x) = errors_of f ++ errors_of x.
Proof. destruct f, x; simpl; by rewrite ?app_nil_r. Qed.

(** The resolution in one piece: the four fields that can fail decide,
    and the errors are theirs, in the order of the schema. *)
Lemma new_Settings_eq cls p :
  new_Settings cls p
  = match validate_int (lit "PORT") 8000 (simple_field cls p (lit "PORT")),
          validate_literal (lit "ENVIRONMENT") environment_literals (lit "local")
                           (simple_field cls p (lit "ENVIRONMENT")),
          validate_cors (lit "BACKEND_CORS_ORIGINS") (OriginList [])
                        (complex_field cls p (lit "BACKEND_CORS_ORIGINS")),
          validate_int (lit "POSTGRES_PORT") 5432
                       (simple_field cls p (lit "POSTGRES_PORT")) with
    | Valid port, Valid environment, Valid origins, Valid postgres_port =>
        Valid
          {| API_V1_STR :=
               supplied_or (lit "/api/v1") (simple_field cls p (lit "API_V1_STR"));
             PROJECT_NAME :=
               supplied_or (lit "Pffsfat") (simple_field cls p (lit "PROJECT_NAME"));
             APP_VERSION :=
               supplied_or_value (default_APP_VERSION cls)
                                 (simple_field cls p (lit "APP_VERSION"));
             PORT := port;
             SECRET_KEY :=
               supplied_or (default_SECRET_KEY cls)
                           (simple_field cls p (lit "SECRET_KEY"));
             ENVIRONMENT := environment;
             FRONTEND_HOST :=
               supplied_or (lit "http://localhost:8080")
                           (simple_field cls p (lit "FRONTEND_HOST"));
             BACKEND_CORS_ORIGINS := origins;
             POSTGRES_SERVER :=
               supplied_or (lit "localhost")
                           (simple_field cls p (lit "POSTGRES_SERVER"));
             POSTGRES_PORT := postgres_port;
             POSTGRES_USER :=
               supplied_or (lit "app") (simple_field cls p (lit "POSTGRES_USER"));
             POSTGRES_PASSWORD :=
               supplied_or (lit "changethis")
                           (simple_field cls p (lit "POSTGRES_PASSWORD"));
             POSTGRES_DB :=
               supplied_or (lit "pffsfat") (simple_field cls p (lit "POSTGRES_DB")) |}
    | r1, r2, r3, r4 =>
        Invalid (errors_of r1 ++ errors_of r2 ++ errors_of r3 ++ errors_of r4)
    end.
Proof.
  unfold new_Settings, validate_str.
  destruct (validate_int (lit "PORT") _ _),
    (validate_literal _ _ _ _), (validate_cors _ _ _),
    (validate_int (lit "POSTGRES_PORT") _ _);
    simpl; rewrite ?app_nil_r, <- ?app_assoc; reflexivity.
Qed.


Lemma validate_literal_errors name allowed d raw e :
  e ∈ errors_of (validate_literal name allowed d raw)
  <-> exists s, raw = Some s /\ (s ∉ allowed)
                /\ e = {| loc := [LField name]; type := literal_error;
                          input := VStr s |}.
Proof.
  unfold validate_literal. destruct raw as [s|]; simpl.
  - case_bool_decide as E; simpl.
    + split; [by intros ?%elem_of_nil|]. by intros (s' & [= <-] & ? & _).
    + rewrite list_elem_of_singleton. split; [intros ->; eauto|].
      by intros (s' & [= <-] & _ & ->).
  - split; [by intros ?%elem_of_nil|]. by intros (s' & ? & _).
Qed.





Lemma validation_cases {A} (r : validation A) :
  (exists a, r = Valid a) \/ (exists es, r = Invalid es).
Proof. destruct r; eauto. Qed.





Lemma errors_new_Settings cls p :
  errors_of (new_Settings cls p)
  = errors_of (validate_int (lit "PORT") 8000 (simple_field cls p (lit "PORT")))
    ++ errors_of (validate_literal (lit "ENVIRONMENT") environment_literals
                    (lit "local") (simple_field cls p (lit "ENVIRONMENT")))
    ++ errors_of (validate_cors (lit "BACKEND_CORS_ORIGINS") (OriginList [])
                    (complex_field cls p (lit "BACKEND_CORS_ORIGINS")))
    ++ errors_of (validate_int (lit "POSTGRES_PORT") 5432
                    (simple_field cls p (lit "POSTGRES_PORT"))).
Proof.
  rewrite new_Settings_eq.
  destruct (validate_int (lit "PORT") _ _),
    (validate_literal _ _ _ _), (validate_cors _ _ _),
    (validate_int (lit "POSTGRES_PORT") _ _); reflexivity.
Qed.







(** C7: when a source supplies an [ENVIRONMENT] that is not one of the
    four literals, the resolution gives no snapshot but a validation
    error, one entry of which names the field [ENVIRONMENT] and carries
    the value. *)
Theorem invalid_environment_rejected cls p v :
  supplied (env_file cls) p (lit "ENVIRONMENT") v ->
  v ∉ environment_literals ->
  exists es e,
    new_Settings cls p = Invalid es
    /\ e ∈ es
    /\ error_field e = Some (lit "ENVIRONMENT")
    /\ type e = literal_error
    /\ input e = VStr v.
Proof.
  intros Hs Hv.
  set (e := {| loc := [LField (lit "ENVIRONMENT")]; type := literal_error;
               input := VStr v |}).
  assert (He : e ∈ errors_of (new_Settings cls p)).
  { rewrite errors_new_Settings, !elem_of_app. right. left.
    apply validate_literal_errors. exists v.
    by rewrite (proj2 (simple_field_supplied _ _ _ _) Hs). }
  destruct (new_Settings cls p) as [s|es] eqn:E.
  - by apply elem_of_nil in He.
  - by exists es, e.
Qed.


End Resolution.

Lemma invalid_environment_rejected_witness :
  exists es e,
    new_Settings (L := example_library) local_class
                 (process_with [(lit "ENVIRONMENT", lit "prod")]) = Invalid es
    /\ e ∈ es
    /\ error_field e = Some (lit "ENVIRONMENT")
    /\ type e = literal_error
    /\ input e = VStr (lit "prod").
Proof.
  apply (invalid_environment_rejected (L := example_library)).
  - apply supplied_environ; [vm_compute; reflexivity|done].
  - apply (bool_decide_eq_false_1 _). vm_compute. reflexivity.
Defined.

(** [env_ignore_empty]: an [ENVIRONMENT] set to the empty string is not
    supplied, and the default applies. *)
Example empty_environment_is_default :
  ENVIRONMENT <$> (match new_Settings (L := example_library) local_class
                           (process_with [(lit "ENVIRONMENT", lit "")]) with
                   | Valid s => Some s
                   | Invalid _ => None
                   end)
  = Some (lit "local").
Proof. vm_compute. reflexivity. Qed.


(** Every offending field is reported, in the order of the schema. *)
Example every_offending_field_reported :
  omap error_field
    (errors_of
       (new_Settings (L := example_library) local_class
          (process_with [(lit "PORT", lit "eighty");
                         (lit "POSTGRES_PORT", lit "5432x");
                         (lit "ENVIRONMENT", lit "prod");
                         (lit "BACKEND_CORS_ORIGINS",
                          lit "http://a.com, nonsense")])))
  = [lit "PORT"; lit "ENVIRONMENT"; lit "BACKEND_CORS_ORIGINS";
     lit "BACKEND_CORS_ORIGINS"; lit "POSTGRES_PORT"].
Proof. vm_compute. reflexivity. Qed.


(** ** The secret key *)

Lemma to_N_inj (x y : Byte.byte) : Byte.to_N x = Byte.to_N y -> x = y.
Proof.
  intros H. apply (f_equal Byte.of_N) in H.
  rewrite !Byte.of_to_N in H. by inversion H.
Qed.

Lemma to_N_bounded_all (t : list Byte.byte) :
  Forall (fun x => (x < 256)%N) (List.map Byte.to_N t).
Proof.
  induction t as [|x t IH]; simpl; constructor; [|done].
  pose proof (Byte.to_N_bounded x). lia.
Qed.

Lemma token_of_bytes_inj (t1 t2 : list Byte.byte) :
  token_of_bytes t1 = token_of_bytes t2 -> t1 = t2.
Proof.
  intros H. apply urlsafe_token_inj in H.
  - revert t2 H. induction t1 as [|x t1 IH]; intros [|y t2]; try done.
    simpl. intros [= Hx Ht]. by rewrite (to_N_inj x y Hx), (IH t2 Ht).
  - apply to_N_bounded_all.
  - apply to_N_bounded_all.
Qed.

Lemma token_urlsafe_fst (n : nat) (g : entropy) :
  (token_urlsafe n g).1 = token_of_bytes (g <$> seq 0 n).
Proof. reflexivity. Qed.

Lemma fmap_seq_ext (g1 g2 : entropy) (n : nat) :
  g1 <$> seq 0 n = g2 <$> seq 0 n <-> forall i, (i < n)%nat -> g1 i = g2 i.
Proof.
  split.
  - intros H i Hi. apply (f_equal (fun l => l !! i)) in H.
    rewrite !list_lookup_fmap, lookup_seq_lt in H by done.
    by inversion H.
  - intros H. apply list_fmap_ext. intros i x Hx.
    apply lookup_seq in Hx as [-> Hi]. by apply H.
Qed.

Lemma length_token_32 (t : list Byte.byte) :
  length t = 32%nat -> length (token_of_bytes t) = 43%nat.
Proof.
  intros Hl. unfold token_of_bytes.
  pose proof (to_N_bounded_all t) as Hb.
  do 33 (destruct t as [|? t]; try done). cbn [List.map] in *.
  repeat match goal with
         | H : Forall _ (_ :: _) |- _ => apply Forall_cons in H as [? H]
         end.
  rewrite !urlsafe_token_three, urlsafe_token_two by done. reflexivity.
Qed.

Section SecretKey.
Context {L : Library}.

(** The class a process defines, given the version and the token. *)
Lemma import_module_eq (p : process) (g : entropy) :
  exists cls,
    class_Settings p g = Return (cls, (token_urlsafe 32 g).2)
    /\ env_file cls = model_config_env_file p
    /\ (exists version,
          _load_app_version_from_pyproject (pyproject p) = Return version
          /\ default_APP_VERSION cls = version)
    /\ default_SECRET_KEY cls = token_of_bytes (g <$> seq 0 32)
    /\ import_module p g = Return (new_Settings cls p, (token_urlsafe 32 g).2)
    /\ import_and_resolve_again p g
       = Return (new_Settings cls p, new_Settings cls p, (token_urlsafe 32 g).2).
Proof.
  destruct (class_Settings_returns p g) as (version & Hv & Hc).
  eexists. split; [exact Hc|]. split; [done|]. split; [by exists version|].
  split; [done|]. unfold import_module, import_and_resolve_again.
  by rewrite Hc.
Qed.

Lemma dotenv_settings_env_file cls cls' p :
  env_file cls = env_file cls' -> dotenv_settings cls p = dotenv_settings cls' p.
Proof. unfold dotenv_settings. by intros ->. Qed.

(** Two classes that differ in the default of [SECRET_KEY] only resolve
    to snapshots that differ in [SECRET_KEY] only. *)
Lemma new_Settings_secret cls cls' p s s' :
  env_file cls = env_file cls' ->
  default_APP_VERSION cls = default_APP_VERSION cls' ->
  new_Settings cls p = Valid s -> new_Settings cls' p = Valid s' ->
  same_but_secret s s'
  /\ SECRET_KEY s = supplied_or (default_SECRET_KEY cls)
                                (simple_field cls p (lit "SECRET_KEY"))
  /\ SECRET_KEY s' = supplied_or (default_SECRET_KEY cls')
                                 (simple_field cls p (lit "SECRET_KEY")).
Proof.
  intros Hf Hv. rewrite !new_Settings_eq.
  unfold simple_field, complex_field.
  rewrite <- (dotenv_settings_env_file cls cls' p Hf), <- Hv.
  destruct (validate_int (lit "PORT") _ _),
    (validate_literal _ _ _ _), (validate_cors _ _ _),
    (validate_int (lit "POSTGRES_PORT") _ _); try done.
  by intros [= <-] [= <-].
Qed.

(** C1, as the code has it: the default of [SECRET_KEY] is drawn when the
    class is defined, once for each import of the module. A second
    resolution in the same process gives the same snapshot, secret
    included. Two imports on the same input give snapshots equal in every
    field but [SECRET_KEY]; with no secret supplied, the key is the token
    of the 32 bytes the random source delivered, 43 characters long, and
    the two keys are equal exactly when the two draws are. *)
Theorem secret_key_fresh_per_import (p : process) (g1 g2 : entropy) :
  (exists r g', import_module p g1 = Return (r, g'))
  /\ (forall r r' g',
        import_and_resolve_again p g1 = Return (r, r', g') -> r = r')
  /\ (forall s1 s2 g1' g2',
        import_module p g1 = Return (Valid s1, g1') ->
        import_module p g2 = Return (Valid s2, g2') ->
        same_but_secret s1 s2
        /\ ((forall v,
               ~ supplied (model_config_env_file p) p (lit "SECRET_KEY") v) ->
            SECRET_KEY s1 = token_of_bytes (g1 <$> seq 0 32)
            /\ length (SECRET_KEY s1) = 43
            /\ (SECRET_KEY s1 = SECRET_KEY s2
                <-> forall i, i < 32 -> g1 i = g2 i))).
Proof.
  destruct (import_module_eq p g1)
    as (cls1 & _ & Hf1 & (v1 & Hv1 & Ev1) & Hk1 & Hi1 & Ha1).
  destruct (import_module_eq p g2)
    as (cls2 & _ & Hf2 & (v2 & Hv2 & Ev2) & Hk2 & Hi2 & _).
  split; [eauto|]. split.
  - intros r r' g'. rewrite Ha1. by intros [= <- <- _].
  - intros s1 s2 g1' g2'. rewrite Hi1, Hi2. intros [= H1 _] [= H2 _].
    destruct (new_Settings_secret cls1 cls2 p s1 s2) as (Hs & K1 & K2);
      try done; [congruence|congruence|].
    split; [done|]. intros Hn.
    assert (Hnone : simple_field cls1 p (lit "SECRET_KEY") = None).
    { apply simple_field_not_supplied. by rewrite Hf1. }
    rewrite Hnone in K1, K2. simpl in K1, K2. rewrite K1, K2, Hk1, Hk2.
    split; [done|]. split.
    + apply length_token_32. by rewrite length_fmap, length_seq.
    + rewrite <- fmap_seq_ext. split; [apply token_of_bytes_inj|by intros ->].
Qed.

End SecretKey.

Lemma secret_key_fresh_per_import_witness :
  exists s1 s2 : Settings,
    SECRET_KEY s1 = lit "AAAAAAAAAAAAAAAAAAAAAAAAAAAAAAAAAAAAAAAAAAA"
    /\ SECRET_KEY s2 = lit "AAECAwQFBgcICQoLDA0ODxAREhMUFRYXGBkaGxwdHh8"
    /\ same_but_secret s1 s2.
Proof.
  pose proof (fun s1 s2 g1' g2' =>
    proj2 (proj2 (secret_key_fresh_per_import (L := example_library)
                    bare_process zeros counting)) s1 s2 g1' g2') as H.
  edestruct H as [Hsame _]; [vm_compute; reflexivity..|].
  eexists _, _. split; [|split]. 3: exact Hsame.
  all: vm_compute; reflexivity.
Defined.

(** C1, as the claim has it, fails: resolving twice in one process gives
    the same [SECRET_KEY] both times, whatever the random source. *)
Lemma resolve_twice_same_secret_key :
  exists s1 s2 g',
    import_and_resolve_again (L := example_library) bare_process counting
    = Return (Valid s1, Valid s2, g')
    /\ SECRET_KEY s1 = SECRET_KEY s2
    /\ SECRET_KEY s1 = lit "AAECAwQFBgcICQoLDA0ODxAREhMUFRYXGBkaGxwdHh8".
Proof.
  eexists _, _, _. split; [vm_compute; reflexivity|]. split; reflexivity.
Qed.

(** * Further properties *)

(** ** [parse_cors] on its own output and on clean input *)

Lemma Trimmed_infix (s t : str) (c : char) : Trimmed s t -> c ∈ t -> c ∈ s.
Proof.
  intros (l & r & -> & _) H. rewrite !elem_of_app. auto.
Qed.

Lemma lstrip_by_all (p : char -> bool) (l s : str) :
  forallb p l = true -> lstrip_by p (l ++ s) = lstrip_by p s.
Proof.
  induction l as [|c l IH]; [done|].
  simpl. intros [Hc Hl]%andb_true_iff. rewrite Hc. by apply IH.
Qed.

Lemma lstrip_by_nil (p : char -> bool) (r : str) :
  forallb p r = true -> lstrip_by p r = [].
Proof.
  intros H. rewrite <- (app_nil_r r). by rewrite lstrip_by_all.
Qed.

(** [strip] is determined by what it leaves and what it removes. *)
Lemma strip_unique (s t : str) : Trimmed s t -> strip s = t.
Proof.
  intros (l & r & -> & Hl & Hr & Hh & Ht). unfold strip.
  rewrite lstrip_by_all by done. destruct t as [|c t].
  - simpl. by rewrite lstrip_by_nil.
  - simpl. rewrite (Hh c eq_refl).
    apply (rstrip_by_unique isspace (c :: t) r); done.
Qed.

Lemma strip_nil_iff (s : str) : strip s = [] <-> forallb isspace s = true.
Proof.
  split.
  - intros H. destruct (strip_Trimmed s) as (l & r & E & Hl & Hr & _).
    rewrite H in E. simpl in E. rewrite E, forallb_app. by rewrite Hl, Hr.
  - intros H. apply strip_unique. exists s, []. rewrite app_nil_r.
    repeat split; done.
Qed.

Lemma strip_nonempty_spec (pieces : list str) (t : str) :
  t ∈ strip_nonempty pieces
  <-> t <> [] /\ exists piece, piece ∈ pieces /\ strip piece = t.
Proof.
  rewrite strip_nonempty_filter, list_elem_of_filter, list_elem_of_fmap.
  split.
  - intros [Hne (piece & -> & Hp)]. eauto.
  - intros [Hne (piece & Hp & <-)]. eauto.
Qed.

Lemma parse_cors_list (s : str) (l : list value) :
  parse_cors (VStr s) = Return (VList l) ->
  startswith_lbracket s = false
  /\ l = VStr <$> strip_nonempty (split_comma s).
Proof.
  unfold parse_cors. destruct (startswith_lbracket s); simpl; [done|].
  by intros [= <-].
Qed.

(** X1: every origin [parse_cors] returns for a string is not empty,
    contains no comma and has no whitespace at either end. *)
Theorem parse_cors_origins_clean (s : str) (l : list value) :
  parse_cors (VStr s) = Return (VList l) ->
  Forall (fun v => exists t, v = VStr t /\ clean_origin t) l.
Proof.
  intros [_ ->]%parse_cors_list. apply Forall_forall.
  intros v (t & -> & Ht)%list_elem_of_fmap. exists t. split; [done|].
  apply strip_nonempty_spec in Ht as (Hne & piece & Hp & <-).
  destruct (strip_Trimmed piece) as (l & r & E & Hl & Hr & Hh & Hla).
  split; [done|]. split; [|done].
  intros Hc. pose proof (split_comma_no_comma s) as Hno.
  rewrite Forall_forall in Hno. apply (Hno piece Hp).
  by apply (Trimmed_infix piece (strip piece)); [apply strip_Trimmed|].
Qed.

Lemma parse_cors_origins_clean_witness :
  Forall (fun v => exists t, v = VStr t /\ clean_origin t)
         [VStr (lit "http://a.com"); VStr (lit "b")].
Proof.
  apply (parse_cors_origins_clean (lit " http://a.com ,, b ,")). reflexivity.
Defined.

(** X2: [parse_cors] leaves what it returns unchanged: applying the
    validator to its own result gives that result again. *)
Theorem parse_cors_idempotent (v v' : value) :
  parse_cors v = Return v' -> parse_cors v' = Return v'.
Proof.
  destruct v as [| | | |s| |l| | |]; simpl; try done.
  - destruct (startswith_lbracket s) eqn:E; simpl; intros [= <-]; [|done].
    simpl. by rewrite E.
  - by intros [= <-].
Qed.

Lemma parse_cors_idempotent_witness :
  parse_cors (VList [VStr (lit "a"); VStr (lit "b")])
  = Return (VList [VStr (lit "a"); VStr (lit "b")]).
Proof.
  apply (parse_cors_idempotent (VStr (lit "a , b"))). reflexivity.
Defined.

(** ** Round trip through the comma-separated form *)

Lemma split_comma_single (t : str) : comma ∉ t -> split_comma t = [t].
Proof.
  induction t as [|c t IH]; [done|].
  intros H. apply not_elem_of_cons in H as [Hc Ht].
  simpl. rewrite (proj2 (N.eqb_neq c comma)) by congruence.
  by rewrite (IH Ht).
Qed.

Lemma split_comma_app (t s : str) :
  comma ∉ t -> split_comma (t ++ comma :: s) = t :: split_comma s.
Proof.
  induction t as [|c t IH]; intros H.
  - reflexivity.
  - apply not_elem_of_cons in H as [Hc Ht].
    simpl. rewrite (proj2 (N.eqb_neq c comma)) by congruence.
    by rewrite (IH Ht).
Qed.

Lemma split_join_comma (ps : list str) :
  ps <> [] -> Forall (fun piece => comma ∉ piece) ps ->
  split_comma (join_comma ps) = ps.
Proof.
  induction ps as [|p ps IH]; [done|]. intros _ H.
  apply Forall_cons in H as [Hp Hps]. destruct ps as [|q ps].
  - simpl. by apply split_comma_single.
  - change (join_comma (p :: q :: ps)) with (p ++ comma :: join_comma (q :: ps)).
    rewrite split_comma_app by done. by rewrite IH.
Qed.

Lemma strip_nonempty_Trimmed (padded pieces : list str) :
  Forall2 Trimmed padded pieces -> Forall (fun t => t <> []) pieces ->
  strip_nonempty padded = pieces.
Proof.
  induction 1 as [|s t padded pieces Hst _ IH]; [done|].
  intros [Ht Hp]%Forall_cons. simpl.
  rewrite (strip_unique s t Hst). destruct t; [done|]. simpl.
  by rewrite (IH Hp).
Qed.

(** X3: origins that are clean come back from their comma-separated form,
    in their order, whatever whitespace surrounds each of them there. *)
Theorem parse_cors_join_round_trip (padded pieces : list str) :
  Forall2 Trimmed padded pieces ->
  Forall (fun t => t <> []) pieces ->
  Forall (fun piece => comma ∉ piece) padded ->
  startswith_lbracket (join_comma padded) = false ->
  parse_cors (VStr (join_comma padded)) = Return (VList (VStr <$> pieces)).
Proof.
  intros Ht Hne Hc Hs. unfold parse_cors. rewrite Hs. simpl.
  destruct padded as [|p padded].
  - by inversion Ht.
  - rewrite split_join_comma by done.
    by rewrite (strip_nonempty_Trimmed _ _ Ht Hne).
Qed.

Lemma parse_cors_join_round_trip_witness :
  parse_cors (VStr (join_comma [lit "http://a.com "; lit "  http://b.com/x"]))
  = Return (VList (VStr <$> [lit "http://a.com"; lit "http://b.com/x"])).
Proof.
  apply parse_cors_join_round_trip.
  - repeat constructor.
    + exists [], (lit " "). repeat split; try done.
      all: intros c [= <-]; reflexivity.
    + exists (lit "  "), []. repeat split; try done.
      all: intros c [= <-]; reflexivity.
  - repeat constructor; done.
  - repeat constructor; apply (bool_decide_eq_false_1 _); vm_compute; reflexivity.
  - reflexivity.
Defined.

(** ** Texts without an origin *)

Lemma strip_nonempty_nil_iff (pieces : list str) :
  strip_nonempty pieces = []
  <-> Forall (fun piece => forallb isspace piece = true) pieces.
Proof.
  induction pieces as [|p pieces IH]; [done|].
  simpl. rewrite Forall_cons, <- IH, <- strip_nil_iff.
  destruct (strip p); simpl; [tauto|]. split; [done|]. by intros [? _].
Qed.

Lemma split_comma_all_space (s : str) :
  Forall (fun piece => forallb isspace piece = true) (split_comma s)
  <-> forallb comma_or_space s = true.
Proof.
  induction s as [|c s IH]; simpl.
  - split; [done|]. intros _. by repeat constructor.
  - unfold comma_or_space at 1. destruct (c =? comma)%N eqn:Hc.
    + rewrite orb_true_r, Forall_cons. simpl. rewrite IH. tauto.
    + rewrite orb_false_r. pose proof (split_comma_nonempty s) as Hne.
      destruct (split_comma s) as [|p ps]; [done|].
      rewrite Forall_cons in IH. rewrite Forall_cons. simpl.
      rewrite !andb_true_iff, <- IH. tauto.
Qed.

(** X4: [parse_cors] returns the empty list exactly on the strings made of
    commas and whitespace only, the empty string among them. *)
Theorem parse_cors_empty_iff (s : str) :
  parse_cors (VStr s) = Return (VList [])
  <-> forallb comma_or_space s = true.
Proof.
  unfold parse_cors. destruct (startswith_lbracket s) eqn:Hs; simpl.
  - split; [done|]. destruct s as [|c s]; [done|].
    simpl in Hs. apply N.eqb_eq in Hs. by subst c.
  - rewrite <- split_comma_all_space, <- strip_nonempty_nil_iff.
    destruct (strip_nonempty (split_comma s)); [done|].
    split; [|done]. by intros [=].
Qed.

Lemma parse_cors_empty_iff_witness :
  parse_cors (VStr (lit " , ,,  ")) = Return (VList []).
Proof. apply (proj2 (parse_cors_empty_iff _)). reflexivity. Defined.

(** ** The version that is found *)

Lemma declares_version_unique (m : manifest) (v w : value) :
  declares_version m v -> declares_version m w -> v = w.
Proof.
  intros (c & pr & -> & Hp & Hv) (c' & pr' & [= <-] & Hp' & Hv').
  rewrite Hp in Hp'. inversion Hp'; subst pr'. congruence.
Qed.

Lemma load_declared_version (m : manifest) (v : value) :
  declares_version m v ->
  _load_app_version_from_pyproject m
  = Return (if truthy v then v else fallback_version).
Proof.
  intros (config & project & -> & Hp & Hv).
  unfold _load_app_version_from_pyproject, load_app_version_try, dict_get.
  simpl. rewrite Hp, get_method_dict. unfold dict_get. simpl. rewrite Hv.
  by destruct (truthy v).
Qed.

Lemma classic_version (m : manifest) :
  (exists w, declares_version m w) \/ (forall w, ~ declares_version m w).
Proof.
  destruct m as [| | | |config];
    try (right; by intros w (c & pr & [=] & _)).
  destruct (lookup_item (lit "project") config) as [v|] eqn:Hp.
  - destruct v as [| | | | | | | |project|];
      try (right; intros w (c & pr & [= <-] & Hp' & _); congruence).
    destruct (lookup_item (lit "version") project) as [w|] eqn:Hv.
    + left. exists w. by exists config, project.
    + right. intros w (c & pr & [= <-] & Hp' & Hv'). congruence.
  - right. intros w (c & pr & [= <-] & Hp' & _). congruence.
Qed.

(** X5: the function returns [v] exactly when the manifest declares [v]
    under [project.version] and [v] is truthy, or [v] is ["0.0.0"] and the
    manifest declares no truthy version. *)
Theorem load_app_version_returns_iff (m : manifest) (v : value) :
  _load_app_version_from_pyproject m = Return v
  <-> (declares_version m v /\ truthy v = true)
      \/ (v = VStr (lit "0.0.0")
          /\ forall w, declares_version m w -> truthy w = false).
Proof.
  split.
  - intros H. destruct (load_app_version_cases m) as [E|(w & Hd & Ht & E)].
    + rewrite E in H. inversion H; subst v. clear H.
      destruct (classic_version m) as [(w & Hw)|Hn].
      * rewrite (load_declared_version m w Hw) in E.
        destruct (truthy w) eqn:Ht.
        -- inversion E; subst w. left. by split.
        -- right. split; [done|]. intros w' Hw'.
           by rewrite <- (declares_version_unique m w w' Hw Hw').
      * right. split; [done|]. intros w Hw. by destruct (Hn w).
    + rewrite E in H. inversion H; subst w. left. by split.
  - intros [[Hd Ht]|[-> Hn]].
    + by rewrite (load_declared_version m v Hd), Ht.
    + destruct (load_app_version_cases m) as [E|(w & Hd & Ht & E)]; [done|].
      rewrite (Hn w Hd) in Ht. done.
Qed.

Lemma load_app_version_returns_iff_witness :
  _load_app_version_from_pyproject
    (Loaded [(lit "tool", VDict []);
             (lit "project", VDict [(lit "name", VStr (lit "backend"));
                                    (lit "version", VStr (lit "1.4.0"))])])
  = Return (VStr (lit "1.4.0")).
Proof.
  apply (proj2 (load_app_version_returns_iff _ _)). left. split; [|done].
  by eexists _, _.
Defined.

(** ** Origins held as a string *)

Lemma rstrip_slash_char (c : char) : rstrip_slash [c] = origin_of_char c.
Proof.
  unfold rstrip_slash, origin_of_char. cbn [rstrip_by].
  rewrite (N.eqb_sym slash c). by destruct (c =? slash)%N.
Qed.

Lemma map_origins_string (s : str) :
  List.map (fun o => rstrip_slash (str_of_origin o)) (List.map OChar s)
  = origin_of_char <$> s.
Proof.
  induction s as [|c s IH]; [done|].
  cbn [List.map str_of_origin]. rewrite IH, rstrip_slash_char. done.
Qed.

Lemma map_origins_urls (urls : list AnyUrl) :
  List.map (fun o => rstrip_slash (str_of_origin o)) (List.map OUrl urls)
  = (fun u => rstrip_slash (unicode_string u)) <$> urls.
Proof.
  induction urls as [|u urls IH]; [done|].
  cbn [List.map str_of_origin]. by rewrite IH.
Qed.

(** X6: when [BACKEND_CORS_ORIGINS] holds a string, the effective origins
    are its characters one by one, a slash giving the empty string,
    followed by the host. *)
Theorem all_cors_origins_of_string (self : Settings) (s : str) :
  BACKEND_CORS_ORIGINS self = OriginStr s ->
  all_cors_origins self = (origin_of_char <$> s) ++ [FRONTEND_HOST self]
  /\ length (all_cors_origins self) = S (length s).
Proof.
  intros H. unfold all_cors_origins. rewrite H. cbn [iter_origins]. split.
  - by rewrite map_origins_string.
  - rewrite length_app, !length_map. simpl. lia.
Qed.

Lemma all_cors_origins_of_string_witness :
  all_cors_origins (local_settings (lit "http://h") (OriginStr (lit "[a/")))
  = [lit "["; lit "a"; lit ""; lit "http://h"]
  /\ length (all_cors_origins
               (local_settings (lit "http://h") (OriginStr (lit "[a/"))))
     = 4.
Proof.
  exact (all_cors_origins_of_string
           (local_settings (lit "http://h") (OriginStr (lit "[a/")))
           (lit "[a/") eq_refl).
Defined.

(** ** The fields of a snapshot *)

Section Snapshot.
Context {L : Library}.

(** What a snapshot holds, field by field. *)
Lemma new_Settings_Valid_inv cls p snap :
  new_Settings cls p = Valid snap ->
  validate_int (lit "PORT") 8000 (simple_field cls p (lit "PORT"))
  = Valid (PORT snap)
  /\ validate_literal (lit "ENVIRONMENT") environment_literals (lit "local")
                      (simple_field cls p (lit "ENVIRONMENT"))
     = Valid (ENVIRONMENT snap)
  /\ validate_cors (lit "BACKEND_CORS_ORIGINS") (OriginList [])
                   (complex_field cls p (lit "BACKEND_CORS_ORIGINS"))
     = Valid (BACKEND_CORS_ORIGINS snap)
  /\ validate_int (lit "POSTGRES_PORT") 5432
                  (simple_field cls p (lit "POSTGRES_PORT"))
     = Valid (POSTGRES_PORT snap)
  /\ APP_VERSION snap
     = supplied_or_value (default_APP_VERSION cls)
                         (simple_field cls p (lit "APP_VERSION"))
  /\ Forall (fun '(name, attribute, default) =>
               attribute snap = supplied_or default (simple_field cls p name))
            (text_fields cls).
Proof.
  rewrite new_Settings_eq.
  destruct (validate_int (lit "PORT") _ _),
    (validate_literal _ _ _ _), (validate_cors _ _ _),
    (validate_int (lit "POSTGRES_PORT") _ _); try done.
  intros [= <-]. simpl. repeat split; repeat constructor.
Qed.

Lemma env_settings_lookup p name s :
  environ p !! name = Some s -> s <> [] -> env_settings p !! name = Some s.
Proof.
  intros H Hs. unfold env_settings, ignore_empty.
  by apply map_lookup_filter_Some.
Qed.

(** The text of the environment for a complex field, when it is no JSON
    document, reaches the validator as it is. *)
Lemma complex_field_environ cls p name s :
  environ p !! name = Some s -> s <> [] -> json_loads s = None ->
  complex_field cls p name = Some (VStr s).
Proof.
  intros H Hs Hj. unfold complex_field.
  rewrite (env_settings_lookup p name s H Hs). simpl.
  unfold prepare_complex at 1. rewrite Hj.
  by destruct (dotenv_settings cls p !! name ≫= prepare_complex).
Qed.

(** X7: a text in the environment that starts with [[] and is no JSON
    document is kept as a string in [BACKEND_CORS_ORIGINS]; no item of it
    is validated as a URL and the effective origins are its characters. *)
Theorem bracketed_text_kept_as_string cls p s snap :
  environ p !! lit "BACKEND_CORS_ORIGINS" = Some s ->
  startswith_lbracket s = true ->
  json_loads s = None ->
  new_Settings cls p = Valid snap ->
  BACKEND_CORS_ORIGINS snap = OriginStr s
  /\ all_cors_origins snap = (origin_of_char <$> s) ++ [FRONTEND_HOST snap].
Proof.
  intros He Hs Hj Hv.
  assert (Hne : s <> []) by (by destruct s).
  apply new_Settings_Valid_inv in Hv as (_ & _ & Hc & _).
  rewrite (complex_field_environ cls p _ s He Hne Hj) in Hc.
  unfold validate_cors, parse_cors in Hc. rewrite Hs in Hc. simpl in Hc.
  inversion Hc as [E]. split; [done|].
  unfold all_cors_origins. rewrite <- E. cbn [iter_origins].
  by rewrite map_origins_string.
Qed.

(** X8: a comma-separated text in the environment resolves to the URLs of
    its origins, in their order, and the effective origins are these
    URLs without the slashes at their end, followed by the host. *)
Theorem comma_separated_origins_resolved cls p s snap :
  environ p !! lit "BACKEND_CORS_ORIGINS" = Some s ->
  s <> [] ->
  startswith_lbracket s = false ->
  json_loads s = None ->
  new_Settings cls p = Valid snap ->
  exists pieces urls,
    parse_cors (VStr s) = Return (VList (VStr <$> pieces))
    /\ Forall2 (fun t u => AnyUrl_validate (VStr t) = Some u) pieces urls
    /\ BACKEND_CORS_ORIGINS snap = OriginList urls
    /\ all_cors_origins snap
       = ((fun u => rstrip_slash (unicode_string u)) <$> urls)
         ++ [FRONTEND_HOST snap].
Proof.
  intros He Hne Hs Hj Hv.
  apply new_Settings_Valid_inv in Hv as (_ & _ & Hc & _).
  rewrite (complex_field_environ cls p _ s He Hne Hj) in Hc.
  unfold validate_cors, parse_cors in Hc. rewrite Hs in Hc. simpl in Hc.
  change (List.map VStr ?l) with (VStr <$> l) in Hc.
  destruct (mapM AnyUrl_validate (VStr <$> strip_nonempty (split_comma s)))
    as [urls|] eqn:Hm; [|done].
  inversion Hc as [E]. exists (strip_nonempty (split_comma s)), urls.
  split; [unfold parse_cors; by rewrite Hs|].
  split; [by apply mapM_Some, Forall2_fmap_l in Hm|].
  split; [done|].
  unfold all_cors_origins. rewrite <- E. cbn [iter_origins].
  by rewrite map_origins_urls.
Qed.

End Snapshot.

Lemma bracketed_text_kept_as_string_witness :
  exists snap,
    new_Settings (L := example_library) local_class
      (process_with [(lit "BACKEND_CORS_ORIGINS", lit "[http://a.com]")])
    = Valid snap
    /\ BACKEND_CORS_ORIGINS snap = OriginStr (lit "[http://a.com]")
    /\ length (all_cors_origins snap) = 15.
Proof.
  eexists. split; [vm_compute; reflexivity|].
  edestruct (bracketed_text_kept_as_string (L := example_library) local_class
               (process_with [(lit "BACKEND_CORS_ORIGINS", lit "[http://a.com]")])
               (lit "[http://a.com]")) as [H1 H2];
    [vm_compute; reflexivity | reflexivity | reflexivity
     | vm_compute; reflexivity |].
  split; [exact H1|]. rewrite H2. reflexivity.
Defined.

Lemma comma_separated_origins_resolved_witness :
  exists snap pieces urls,
    new_Settings (L := example_library) local_class
      (process_with [(lit "BACKEND_CORS_ORIGINS",
                      lit "http://a.com, http://b.com/x/")])
    = Valid snap
    /\ parse_cors (VStr (lit "http://a.com, http://b.com/x/"))
       = Return (VList (VStr <$> pieces))
    /\ Forall2 (fun t u => simple_url (VStr t) = Some u) pieces urls
    /\ BACKEND_CORS_ORIGINS snap = OriginList urls
    /\ all_cors_origins snap
       = ((fun u => rstrip_slash (unicode_string u)) <$> urls)
         ++ [FRONTEND_HOST snap].
Proof.
  eexists. 
  edestruct (comma_separated_origins_resolved (L := example_library) local_class
               (process_with [(lit "BACKEND_CORS_ORIGINS",
                               lit "http://a.com, http://b.com/x/")])
               (lit "http://a.com, http://b.com/x/"))
    as (pieces & urls & H);
    [vm_compute; reflexivity | done | reflexivity | reflexivity
     | vm_compute; reflexivity |].
  exists pieces, urls. split; [reflexivity|exact H].
Defined.

(** ** Where the fields come from *)

Section Sources.
Context {L : Library}.

Lemma supplied_or_cases cls p name default :
  (forall v, supplied (env_file cls) p name v ->
             supplied_or default (simple_field cls p name) = v)
  /\ ((forall v, ~ supplied (env_file cls) p name v) ->
      supplied_or default (simple_field cls p name) = default).
Proof.
  split.
  - intros v Hv%simple_field_supplied. by rewrite Hv.
  - intros Hn%simple_field_not_supplied. by rewrite Hn.
Qed.

(** X9: each text field of a snapshot holds the text a source supplies
    for it, the environment before the env-file, and its default when no
    source does. *)
Theorem text_fields_resolved cls p snap :
  new_Settings cls p = Valid snap ->
  Forall (fun '(name, attribute, default) =>
            (forall v, supplied (env_file cls) p name v -> attribute snap = v)
            /\ ((forall v, ~ supplied (env_file cls) p name v) ->
                attribute snap = default))
         (text_fields cls).
Proof.
  intros (_ & _ & _ & _ & _ & H)%new_Settings_Valid_inv.
  eapply Forall_impl; [exact H|].
  intros [[name attribute] default] ->. apply supplied_or_cases.
Qed.

(** X10: the [ENVIRONMENT] of a snapshot is one of the four literals: the
    one supplied, or [local]. *)
Theorem environment_resolved cls p snap :
  new_Settings cls p = Valid snap ->
  ENVIRONMENT snap ∈ environment_literals
  /\ (forall v, supplied (env_file cls) p (lit "ENVIRONMENT") v ->
                ENVIRONMENT snap = v)
  /\ ((forall v, ~ supplied (env_file cls) p (lit "ENVIRONMENT") v) ->
      ENVIRONMENT snap = lit "local").
Proof.
  intros (_ & H & _)%new_Settings_Valid_inv. unfold validate_literal in H.
  destruct (simple_field cls p (lit "ENVIRONMENT")) as [t|] eqn:E.
  - case_bool_decide as Ht; [|done]. inversion H; subst t.
    split; [done|]. split.
    + intros v Hv%simple_field_supplied. congruence.
    + intros Hn%simple_field_not_supplied. congruence.
  - inversion H as [E']. split; [|split].
    + apply (bool_decide_eq_true_1 _). vm_compute. reflexivity.
    + intros v Hv%simple_field_supplied. congruence.
    + done.
Qed.

Lemma validate_int_resolved cls p name default n :
  validate_int name default (simple_field cls p name) = Valid n ->
  (forall v, supplied (env_file cls) p name v -> int_from_str v = Some n)
  /\ ((forall v, ~ supplied (env_file cls) p name v) -> n = default).
Proof.
  unfold validate_int. intros H. split.
  - intros v Hv%simple_field_supplied. rewrite Hv in H.
    destruct (int_from_str v); [|done]. by inversion H.
  - intros Hn%simple_field_not_supplied. rewrite Hn in H. by inversion H.
Qed.

(** X11: each port of a snapshot is the integer its supplied text coerces
    to, and [8000], respectively [5432], when no source supplies it. *)
Theorem ports_resolved cls p snap :
  new_Settings cls p = Valid snap ->
  (forall v, supplied (env_file cls) p (lit "PORT") v ->
             int_from_str v = Some (PORT snap))
  /\ ((forall v, ~ supplied (env_file cls) p (lit "PORT") v) ->
      PORT snap = 8000%Z)
  /\ (forall v, supplied (env_file cls) p (lit "POSTGRES_PORT") v ->
                int_from_str v = Some (POSTGRES_PORT snap))
  /\ ((forall v, ~ supplied (env_file cls) p (lit "POSTGRES_PORT") v) ->
      POSTGRES_PORT snap = 5432%Z).
Proof.
  intros (H1 & _ & _ & H2 & _)%new_Settings_Valid_inv.
  apply validate_int_resolved in H1 as [? ?], H2 as [? ?]. done.
Qed.

Lemma new_Settings_with_dotenv cls p d :
  env_file cls = None -> new_Settings cls (with_dotenv p d) = new_Settings cls p.
Proof.
  intros H.
  unfold new_Settings, simple_field, complex_field, dotenv_settings,
    env_settings.
  rewrite H. reflexivity.
Qed.

Lemma getenv_truthy p name :
  truthy (getenv p name) = true
  <-> exists t, environ p !! name = Some t /\ t <> [].
Proof.
  unfold getenv. destruct (environ p !! name) as [[|c t]|]; simpl.
  - split; [done|]. by intros (t & [= <-] & ?).
  - split; [|done]. intros _. by eexists.
  - split; [done|]. by intros (t & ? & _).
Qed.

(** X12: when [TESTING] is set to any non-empty text, the class reads no
    env-file and the import gives the same result whatever the file
    holds; when it is unset or empty, the class reads [.env]. *)
Theorem testing_disables_env_file p :
  (forall t d g,
      environ p !! lit "TESTING" = Some t -> t <> [] ->
      model_config_env_file p = None
      /\ import_module (with_dotenv p d) g = import_module p g)
  /\ (environ p !! lit "TESTING" = None
      \/ environ p !! lit "TESTING" = Some [] ->
      model_config_env_file p = Some (lit ".env")).
Proof.
  split.
  - intros t d g Ht Hne.
    assert (Hf : model_config_env_file p = None).
    { unfold model_config_env_file.
      rewrite (proj2 (getenv_truthy p (lit "TESTING"))); eauto. }
    split; [done|].
    unfold import_module, class_Settings.
    change (model_config_env_file (with_dotenv p d))
      with (model_config_env_file p).
    change (pyproject (with_dotenv p d)) with (pyproject p).
    destruct (_load_app_version_from_pyproject (pyproject p)) as [v|e];
      [|done].
    simpl. destruct (token_urlsafe 32 g) as [tok g'] eqn:Et. simpl.
    by rewrite new_Settings_with_dotenv.
  - unfold model_config_env_file, getenv. by intros [-> | ->].
Qed.

End Sources.

Section Ignored.
Context {L : Library}.

Lemma env_settings_agree p p' f :
  environ p !! f = environ p' !! f ->
  env_settings p !! f = env_settings p' !! f.
Proof.
  intros H. unfold env_settings, ignore_empty.
  rewrite !map_lookup_filter. by rewrite H.
Qed.

Lemma dotenv_settings_agree cls p p' f :
  dotenv p ≫= (fun vars => vars !! f) = dotenv p' ≫= (fun vars => vars !! f) ->
  dotenv_settings cls p !! f = dotenv_settings cls p' !! f.
Proof.
  unfold dotenv_settings, ignore_empty. destruct (env_file cls); [|done].
  destruct (dotenv p), (dotenv p'); simpl; intros H;
    rewrite ?map_lookup_filter, ?lookup_empty, ?H; try done.
  by rewrite <- H.
Qed.

Lemma fields_agree cls p p' f :
  environ p !! f = environ p' !! f ->
  dotenv p ≫= (fun vars => vars !! f) = dotenv p' ≫= (fun vars => vars !! f) ->
  simple_field cls p f = simple_field cls p' f
  /\ complex_field cls p f = complex_field cls p' f.
Proof.
  intros He Hd. unfold simple_field, complex_field.
  rewrite !lookup_union.
  by rewrite (env_settings_agree p p' f He),
    (dotenv_settings_agree cls p p' f Hd).
Qed.

Lemma new_Settings_agree cls p p' :
  (forall f, f ∈ field_names -> environ p !! f = environ p' !! f) ->
  (forall f, f ∈ field_names ->
             dotenv p ≫= (fun vars => vars !! f)
             = dotenv p' ≫= (fun vars => vars !! f)) ->
  new_Settings cls p = new_Settings cls p'.
Proof.
  intros He Hd.
  assert (Hall : Forall (fun f => simple_field cls p f = simple_field cls p' f
                                  /\ complex_field cls p f
                                     = complex_field cls p' f) field_names).
  { apply Forall_forall. intros f Hf. apply fields_agree; auto. }
  unfold field_names in Hall.
  repeat match goal with
         | H : Forall _ (_ :: _) |- _ => apply Forall_cons in H as [[? ?] H]
         end.
  unfold new_Settings.
  repeat match goal with
         | H : simple_field cls p _ = _ |- _ => rewrite H; clear H
         end.
  by repeat match goal with
            | H : complex_field cls p _ = _ |- _ => rewrite H; clear H
            end.
Qed.

(** X13: the import depends on the environment and on the pairs read from
    the env-file through [TESTING] and the names of the fields only, each
    written as the schema writes it: two processes that agree on these,
    and on the manifest, import the same result. *)
Theorem unknown_variables_ignored p p' g :
  (forall f, f ∈ lit "TESTING" :: field_names ->
             environ p !! f = environ p' !! f) ->
  (forall f, f ∈ field_names ->
             dotenv p ≫= (fun vars => vars !! f)
             = dotenv p' ≫= (fun vars => vars !! f)) ->
  pyproject p = pyproject p' ->
  import_module p g = import_module p' g.
Proof.
  intros He Hd Hp. unfold import_module, class_Settings.
  assert (Hf : model_config_env_file p = model_config_env_file p').
  { unfold model_config_env_file, getenv.
    rewrite (He (lit "TESTING")); [done|]. apply elem_of_cons. by left. }
  rewrite Hf, Hp.
  destruct (_load_app_version_from_pyproject (pyproject p')) as [w|e];
    [|done].
  simpl. destruct (token_urlsafe 32 g) as [tok g']. simpl.
  rewrite (new_Settings_agree _ p p'); [done| |done].
  intros f Hin. apply He, elem_of_cons. by right.
Qed.



(** X15: the [APP_VERSION] of the imported settings is the text a source
    supplies for it and otherwise what the version discovery returns on
    the manifest. *)
Theorem app_version_resolved p g snap g' :
  import_module p g = Return (Valid snap, g') ->
  (forall v, supplied (model_config_env_file p) p (lit "APP_VERSION") v ->
             APP_VERSION snap = VStr v)
  /\ ((forall v, ~ supplied (model_config_env_file p) p (lit "APP_VERSION") v) ->
      _load_app_version_from_pyproject (pyproject p)
      = Return (APP_VERSION snap)).
Proof.
  destruct (import_module_eq p g)
    as (cls & _ & Hf & (version & Hv & Ev) & _ & Hi & _).
  rewrite Hi. intros [= H _].
  apply new_Settings_Valid_inv in H as (_ & _ & _ & _ & Ha & _).
  rewrite <- Hf. split.
  - intros v Hs%simple_field_supplied. by rewrite Ha, Hs.
  - intros Hn%simple_field_not_supplied. rewrite Ha, Hn. simpl. congruence.
Qed.

End Ignored.

(** ** The default secret *)

Lemma b64char_in_alphabet (i : N) :
  (i < 64)%N -> b64char i ∈ urlsafe_alphabet.
Proof.
  intros Hi. destruct (b64char_spec i Hi) as [_ H].
  apply list_find_Some in H as (H & _). by eapply list_elem_of_lookup_2.
Qed.

Lemma urlsafe_token_alphabet (bs : list N) :
  Forall (fun x => (x < 256)%N) bs ->
  Forall (fun c => c ∈ urlsafe_alphabet) (urlsafe_token bs).
Proof.
  induction bs as [|a|a b|a b c rest IH] using list_ind_by_three; intros Hb;
    repeat match goal with
           | H : Forall _ (_ :: _) |- _ => apply Forall_cons in H as [? H]
           end.
  - constructor.
  - rewrite urlsafe_token_one by done.
    destruct (sextets_bounded a a) as (? & _ & _ & ? & _); try done.
    repeat (apply Forall_cons_2; [by apply b64char_in_alphabet|]).
    apply Forall_nil_2.
  - rewrite urlsafe_token_two by done.
    destruct (sextets_bounded a b) as (? & ? & _); try done.
    destruct (sextets_bounded b b) as (_ & _ & _ & _ & ? & _); try done.
    repeat (apply Forall_cons_2; [by apply b64char_in_alphabet|]).
    apply Forall_nil_2.
  - rewrite urlsafe_token_three by done.
    destruct (sextets_bounded a b) as (? & ? & _); try done.
    destruct (sextets_bounded b c) as (_ & _ & ? & _); try done.
    destruct (sextets_bounded c c) as (_ & _ & _ & _ & _ & ?); try done.
    repeat (apply Forall_cons_2; [by apply b64char_in_alphabet|]).
    by apply IH.
Qed.

Section DefaultSecret.
Context {L : Library}.

(** X16: when no source supplies [SECRET_KEY], the key of the imported
    settings is made of characters of the URL-safe alphabet only, without
    padding. *)
Theorem default_secret_key_urlsafe p g snap g' :
  import_module p g = Return (Valid snap, g') ->
  (forall v, ~ supplied (model_config_env_file p) p (lit "SECRET_KEY") v) ->
  Forall (fun c => c ∈ urlsafe_alphabet) (SECRET_KEY snap)
  /\ equals_sign ∉ SECRET_KEY snap.
Proof.
  destruct (import_module_eq p g) as (cls & _ & Hf & _ & Hk & Hi & _).
  rewrite Hi. intros [= H _] Hn.
  apply new_Settings_Valid_inv in H as (_ & _ & _ & _ & _ & H).
  unfold text_fields in H.
  apply Forall_cons in H as [_ H]. apply Forall_cons in H as [_ H].
  apply Forall_cons in H as [Hs _].
  rewrite <- Hf in Hn. apply simple_field_not_supplied in Hn.
  rewrite Hn in Hs. simpl in Hs. rewrite Hs, Hk.
  assert (Ha : Forall (fun c => c ∈ urlsafe_alphabet)
                      (token_of_bytes (g <$> seq 0 32))).
  { apply urlsafe_token_alphabet, to_N_bounded_all. }
  split; [done|]. intros Hin. rewrite Forall_forall in Ha.
  apply Ha in Hin. revert Hin. apply (bool_decide_eq_false_1 _).
  vm_compute. reflexivity.
Qed.

End DefaultSecret.

(** ** The properties on the example processes *)

Lemma text_fields_resolved_witness :
  exists snap,
    new_Settings (L := example_library) local_class layered_process
    = Valid snap
    /\ PROJECT_NAME snap = lit "Shop"
    /\ POSTGRES_DB snap = lit "shop"
    /\ POSTGRES_USER snap = lit "app"
    /\ Forall (fun '(name, attribute, default) =>
                 (forall v, supplied (env_file local_class) layered_process
                                     name v -> attribute snap = v)
                 /\ ((forall v, ~ supplied (env_file local_class)
                                          layered_process name v) ->
                     attribute snap = default))
              (text_fields local_class).
Proof.
  eexists. split; [vm_compute; reflexivity|].
  do 3 (split; [reflexivity|]).
  apply (text_fields_resolved (L := example_library)).
  vm_compute. reflexivity.
Defined.

Lemma environment_resolved_witness :
  exists snap,
    new_Settings (L := example_library) local_class layered_process
    = Valid snap
    /\ ENVIRONMENT snap = lit "staging"
    /\ ENVIRONMENT snap ∈ environment_literals.
Proof.
  eexists. split; [vm_compute; reflexivity|]. split; [reflexivity|].
  eapply (proj1 (environment_resolved (L := example_library)
                   local_class layered_process _ _)).
  Unshelve. vm_compute. reflexivity.
Defined.

Lemma ports_resolved_witness :
  exists snap,
    new_Settings (L := example_library) local_class layered_process
    = Valid snap
    /\ PORT snap = 9000%Z
    /\ POSTGRES_PORT snap = 5432%Z.
Proof.
  eexists. split; [vm_compute; reflexivity|]. split; [reflexivity|].
  eapply (proj2 (proj2 (proj2
            (ports_resolved (L := example_library)
               local_class layered_process _ _)))).
  apply (proj1 (simple_field_not_supplied local_class layered_process
                  (lit "POSTGRES_PORT"))).
  vm_compute. reflexivity.
  Unshelve. vm_compute. reflexivity.
Defined.

Lemma testing_disables_env_file_witness :
  model_config_env_file testing_process = None
  /\ import_module (L := example_library)
       (with_dotenv testing_process None) zeros
     = import_module (L := example_library) testing_process zeros.
Proof.
  apply (proj1 (testing_disables_env_file (L := example_library)
                  testing_process) (lit "1") None zeros).
  - vm_compute. reflexivity.
  - done.
Defined.

(** Under [TESTING] the port of the env-file is not read. *)
Example testing_process_port :
  (fun r => match r with
            | Return (Valid snap, _) => Some (PORT snap)
            | _ => None
            end)
    (import_module (L := example_library) testing_process zeros)
  = Some 8000%Z.
Proof. vm_compute. reflexivity. Qed.

Lemma unknown_variables_ignored_witness :
  import_module (L := example_library) noisy_process counting
  = import_module (L := example_library) bare_process counting.
Proof.
  apply (unknown_variables_ignored (L := example_library)).
  - intros f Hf.
    repeat (apply elem_of_cons in Hf as [->|Hf]; [vm_compute; reflexivity|]).
    by apply elem_of_nil in Hf.
  - intros f Hf. unfold field_names in Hf.
    repeat (apply elem_of_cons in Hf as [->|Hf]; [vm_compute; reflexivity|]).
    by apply elem_of_nil in Hf.
  - reflexivity.
Defined.


Lemma app_version_resolved_witness :
  exists snap g',
    import_module (L := example_library) layered_process zeros
    = Return (Valid snap, g')
    /\ _load_app_version_from_pyproject (pyproject layered_process)
       = Return (APP_VERSION snap)
    /\ APP_VERSION snap = VStr (lit "1.4.0").
Proof.
  edestruct (app_version_resolved (L := example_library)
               layered_process zeros) as [_ H]; [vm_compute; reflexivity|].
  eexists _, _. split; [vm_compute; reflexivity|].
  split; [|reflexivity].
  apply H.
  apply (proj1 (simple_field_not_supplied local_class layered_process
                  (lit "APP_VERSION"))).
  vm_compute. reflexivity.
Defined.

Lemma default_secret_key_urlsafe_witness :
  exists snap g',
    import_module (L := example_library) layered_process counting
    = Return (Valid snap, g')
    /\ Forall (fun c => c ∈ urlsafe_alphabet) (SECRET_KEY snap)
    /\ (equals_sign ∉ SECRET_KEY snap).
Proof.
  eexists _, _. split; [vm_compute; reflexivity|].
  eapply (default_secret_key_urlsafe (L := example_library)
            layered_process counting _ _).
  - reflexivity.
  - apply (proj1 (simple_field_not_supplied local_class layered_process
                    (lit "SECRET_KEY"))).
    vm_compute. reflexivity.
Defined.

(** ** Origins given as a JSON document *)

Section JsonOrigins.
Context {L : Library}.

Lemma merge_value_not_dict (v w : value) :
  is_dict v = false -> merge_value v w = v.
Proof. by destruct v. Qed.

Lemma merge_value_dict (v w : value) :
  is_dict v = true -> is_dict (merge_value v w) = true.
Proof. destruct v; try done. by destruct w. Qed.

(** The environment's dict over the env-file's: common keys are merged
    in place, new keys go to the end. *)
Example merge_value_dicts :
  merge_value
    (VDict [(lit "b", VDict [(lit "y", VInt 2)]); (lit "c", VInt 3)])
    (VDict [(lit "a", VInt 1); (lit "b", VDict [(lit "x", VInt 1)])])
  = VDict [(lit "a", VInt 1);
           (lit "b", VDict [(lit "x", VInt 1); (lit "y", VInt 2)]);
           (lit "c", VInt 3)].
Proof. reflexivity. Qed.

(** What the validator receives when the environment holds a JSON
    document: the decoded value, merged with the env-file's when both are
    dicts. *)
Lemma complex_field_environ_json cls p name s v :
  environ p !! name = Some s -> s <> [] -> json_loads s = Some v ->
  v <> VNone ->
  exists w, complex_field cls p name = Some w
            /\ (is_dict v = false -> w = v)
            /\ (is_dict v = true -> is_dict w = true).
Proof.
  intros H Hs Hj Hv. unfold complex_field.
  rewrite (env_settings_lookup p name s H Hs). simpl.
  assert (Hp : prepare_complex s = Some v).
  { unfold prepare_complex. rewrite Hj. by destruct v. }
  rewrite Hp.
  destruct (dotenv_settings cls p !! name ≫= prepare_complex) as [w|].
  - exists (merge_value v w). split; [done|].
    split; [apply merge_value_not_dict|apply merge_value_dict].
  - exists v. by repeat split.
Qed.

(** X17: a text in the environment that decodes as a JSON list resolves
    to the URLs of the items of that list, in their order, each item
    having passed the URL validation. *)
Theorem json_list_origins_resolved cls p s items snap :
  environ p !! lit "BACKEND_CORS_ORIGINS" = Some s ->
  s <> [] ->
  json_loads s = Some (VList items) ->
  new_Settings cls p = Valid snap ->
  exists urls,
    Forall2 (fun x u => AnyUrl_validate x = Some u) items urls
    /\ BACKEND_CORS_ORIGINS snap = OriginList urls
    /\ length (all_cors_origins snap) = S (length items).
Proof.
  intros He Hne Hj Hv.
  apply new_Settings_Valid_inv in Hv as (_ & _ & Hc & _).
  destruct (complex_field_environ_json cls p (lit "BACKEND_CORS_ORIGINS") s
              (VList items)) as (w & Hw & Hnd & _); try done.
  rewrite Hw, (Hnd eq_refl) in Hc.
  unfold validate_cors in Hc. simpl in Hc.
  destruct (mapM AnyUrl_validate items) as [urls|] eqn:Hm; [|done].
  inversion Hc as [E]. exists urls. apply mapM_Some in Hm.
  split; [done|]. split; [done|].
  unfold all_cors_origins. rewrite <- E. cbn [iter_origins].
  rewrite length_app, !length_map. simpl.
  apply Forall2_length in Hm. lia.
Qed.


End JsonOrigins.

Lemma json_list_origins_resolved_witness :
  exists snap urls,
    new_Settings (L := json_library) local_class
      (process_with [(lit "BACKEND_CORS_ORIGINS", json_origins_text)])
    = Valid snap
    /\ Forall2 (fun x u => simple_url x = Some u)
               [VStr (lit "http://a.com")] urls
    /\ BACKEND_CORS_ORIGINS snap = OriginList urls
    /\ length (all_cors_origins snap) = 2.
Proof.
  edestruct (json_list_origins_resolved (L := json_library) local_class
               (process_with [(lit "BACKEND_CORS_ORIGINS", json_origins_text)])
               json_origins_text [VStr (lit "http://a.com")])
    as (urls & H);
    [vm_compute; reflexivity | done | reflexivity | vm_compute; reflexivity |].
  eexists _, urls. split; [vm_compute; reflexivity|exact H].
Defined.

